(** * EmbeddedArchive: breathing LED on an STM32F4 (register version)

    A shallow embedding of the three C translation units of the project

    - [Delay.c] : SysTick based busy-wait delays ([Delay_us], [Delay_ms],
                  [Delay_s]);
    - [LED.c]   : the GPIO wrappers ([LED_On_1], [LED_Off_1], [LED_On_2],
                  [LED_Off_2]);
    - [main.c]  : the software-PWM breathing loop.

    C integers are represented by [Z] with the wrap-around of the 32-bit
    types written out.  A call from one translation unit into another is
    recorded as an event of a call trace; the register level meaning of the
    events is given separately, on explicit register files.

    Part I holds the definitions, Part II the properties. *)

From Stdlib Require Import ZArith List Bool Lia.
Import ListNotations.

Local Open Scope Z_scope.

(* ================================================================= *)
(** * Part I: the program *)
(* ================================================================= *)

(** ** 32-bit C integers *)

(** Value of a mathematical integer once stored in a [uint32_t]. *)
Definition uint32 (z : Z) : Z := z mod 2 ^ 32.

(** Value of a mathematical integer once stored in an [int]: two's
    complement wrap-around, which is what the Cortex-M4 instructions
    emitted for signed arithmetic compute. *)
Definition int32 (z : Z) : Z := (z + 2 ^ 31) mod 2 ^ 32 - 2 ^ 31.

Definition is_uint32 (z : Z) : Prop := 0 <= z < 2 ^ 32.
Definition is_int32 (z : Z) : Prop := - 2 ^ 31 <= z < 2 ^ 31.

(** ** Call traces

    What one translation unit asks of another: the LED wrappers of [LED.c]
    and the microsecond delay of [Delay.c], the latter with its argument as
    the callee receives it (a [uint32_t]). *)

Inductive event : Type :=
| Call_LED_Init
| Call_LED_On_1
| Call_LED_Off_1
| Call_LED_On_2
| Call_LED_Off_2
| Call_Delay_us (xus : Z).

Definition trace : Type := list event.

Definition event_eqb (a b : event) : bool :=
  match a, b with
  | Call_LED_Init, Call_LED_Init
  | Call_LED_On_1, Call_LED_On_1
  | Call_LED_Off_1, Call_LED_Off_1
  | Call_LED_On_2, Call_LED_On_2
  | Call_LED_Off_2, Call_LED_Off_2 => true
  | Call_Delay_us x, Call_Delay_us y => x =? y
  | _, _ => false
  end.

Definition is_LED1 (e : event) : bool :=
  match e with Call_LED_On_1 | Call_LED_Off_1 => true | _ => false end.

(** Number of occurrences of an event in a trace. *)
Definition occurrences (e : event) (t : trace) : nat :=
  length (filter (event_eqb e) t).

(** ** Delay.c: the counter load of [Delay_us] *)

(** Largest value of the 24-bit SysTick down counter. *)
Definition COUNTER_MAX : Z := 0xFFFFFF.

(** [uint32_t ticks = SystemCoreClock / 1000000 * xus;]
    Both operands are [uint32_t]: the quotient is the integer quotient and
    the product is taken modulo [2^32]. *)
Definition Delay_us_ticks (SystemCoreClock xus : Z) : Z :=
  uint32 (SystemCoreClock / 1000000 * xus).

(** [if(ticks > 0xFFFFFF) ticks = 0xFFFFFF;] gives the value that is
    stored in [SysTick->LOAD]. *)
Definition Delay_us_load (SystemCoreClock xus : Z) : Z :=
  let ticks := Delay_us_ticks SystemCoreClock xus in
  if ticks >? 0xFFFFFF then 0xFFFFFF else ticks.

(** ** Delay.c: [Delay_us]

    [SysTick] is declared by the vendor header [stm32f4xx.h] (CMSIS
    [SysTick_Type]); the header is not part of the sources.  [Delay_us] is
    written over what it asks of the timer: stores to [LOAD], [VAL] and
    [CTRL], loads from [CTRL], and the counter clocks that go by while the
    processor runs. *)

Record SysTick_access (R : Type) : Type := mkAccess
  { store_LOAD : Z -> R -> R;
    store_VAL  : Z -> R -> R;
    store_CTRL : Z -> R -> R;
    load_CTRL  : R -> Z * R;
    elapse     : nat -> R -> R }.

Arguments store_LOAD {R} _ _ _.
Arguments store_VAL {R} _ _ _.
Arguments store_CTRL {R} _ _ _.
Arguments load_CTRL {R} _ _.
Arguments elapse {R} _ _ _.

(** [while(!(SysTick->CTRL & 0x00010000));]
    Each evaluation of the condition loads [CTRL]; [poll_cycles] counter
    clocks go by ahead of each load.  The loop has no exit but COUNTFLAG:
    [fuel] bounds the number of loads the model follows, and [None] says
    that the flag was not seen within them.  The result carries the number
    of loads made.  Counter clocks are counted in the wait only: the three
    stores ahead of it and the store behind it are taken to cost none.
    Whether a call returns does not depend on that; what [CTRL] reads
    after the call, COUNTFLAG included, may. *)
Fixpoint wait_COUNTFLAG {R : Type} (SysTick : SysTick_access R)
  (poll_cycles : nat) (fuel : nat) (reads : nat) (s : R)
  : option (nat * R) :=
  match fuel with
  | O => None
  | S fuel' =>
      let (v, s') := load_CTRL SysTick (elapse SysTick poll_cycles s) in
      if Z.land v 0x00010000 =? 0
      then wait_COUNTFLAG SysTick poll_cycles fuel' (S reads) s'
      else Some (S reads, s')
  end.

(** [void Delay_us(uint32_t xus)] *)
Definition Delay_us {R : Type} (SysTick : SysTick_access R)
  (SystemCoreClock : Z) (poll_cycles : nat) (fuel : nat)
  (xus : Z) (s : R) : option (nat * R) :=
  let ticks := Delay_us_load SystemCoreClock xus in
  let s := store_LOAD SysTick ticks s in
  let s := store_VAL SysTick 0x00 s in
  let s := store_CTRL SysTick 0x00000005 s in
  match wait_COUNTFLAG SysTick poll_cycles fuel 0 s with
  | Some (reads, s) => Some (reads, store_CTRL SysTick 0x00000004 s)
  | None => None
  end.

(** ** The SysTick timer of the Cortex-M4

    The three registers the code touches, and the behaviour the ARMv7-M
    architecture documents for them:

    - [LOAD] : 24-bit reload value;
    - [VAL]  : 24-bit current value; any write clears it and clears
               COUNTFLAG;
    - [CTRL] : bit 0 ENABLE, bit 1 TICKINT, bit 2 CLKSOURCE are writable,
               bit 16 COUNTFLAG is set by the counter when it counts from
               1 to 0 and is cleared by a read of [CTRL].

    While enabled, on every clock the counter decrements; a counter that is
    at 0 is reloaded from [LOAD] instead (so a reload value of 0 keeps it at
    0, and COUNTFLAG is never raised). *)

Record SysTick_Type : Type := mkSysTick
  { CTRL : Z;
    LOAD : Z;
    VAL  : Z }.

Definition SysTick_CTRL_ENABLE    : Z := 0x00000001.
Definition SysTick_CTRL_WRITABLE  : Z := 0x00000007.
Definition SysTick_CTRL_COUNTFLAG : Z := 0x00010000.

Definition ENABLE (s : SysTick_Type) : bool :=
  negb (Z.land (CTRL s) SysTick_CTRL_ENABLE =? 0).

Definition COUNTFLAG (s : SysTick_Type) : bool :=
  negb (Z.land (CTRL s) SysTick_CTRL_COUNTFLAG =? 0).

(** [SysTick->LOAD = v;] *)
Definition write_LOAD (v : Z) (s : SysTick_Type) : SysTick_Type :=
  {| CTRL := CTRL s; LOAD := Z.land v COUNTER_MAX; VAL := VAL s |}.

(** [SysTick->VAL = v;] whatever [v] is, the counter and COUNTFLAG are
    cleared. *)
Definition write_VAL (v : Z) (s : SysTick_Type) : SysTick_Type :=
  {| CTRL := Z.land (CTRL s) (Z.lnot SysTick_CTRL_COUNTFLAG);
     LOAD := LOAD s;
     VAL := 0 |}.

(** [SysTick->CTRL = v;] the control bits are replaced, COUNTFLAG is
    read-only. *)
Definition write_CTRL (v : Z) (s : SysTick_Type) : SysTick_Type :=
  {| CTRL := Z.lor (Z.land (CTRL s) SysTick_CTRL_COUNTFLAG)
                   (Z.land v SysTick_CTRL_WRITABLE);
     LOAD := LOAD s;
     VAL := VAL s |}.

(** Reading [SysTick->CTRL] returns the register and clears COUNTFLAG. *)
Definition read_CTRL (s : SysTick_Type) : Z * SysTick_Type :=
  (CTRL s,
   {| CTRL := Z.land (CTRL s) (Z.lnot SysTick_CTRL_COUNTFLAG);
      LOAD := LOAD s;
      VAL := VAL s |}).

(** One clock of the counter. *)
Definition clock (s : SysTick_Type) : SysTick_Type :=
  if ENABLE s then
    if VAL s =? 0 then
      {| CTRL := CTRL s; LOAD := LOAD s; VAL := LOAD s |}
    else if VAL s =? 1 then
      {| CTRL := Z.lor (CTRL s) SysTick_CTRL_COUNTFLAG;
         LOAD := LOAD s;
         VAL := 0 |}
    else
      {| CTRL := CTRL s; LOAD := LOAD s; VAL := VAL s - 1 |}
  else s.

(** [n] clocks. *)
Fixpoint clocks (n : nat) (s : SysTick_Type) : SysTick_Type :=
  match n with
  | O => s
  | S k => clocks k (clock s)
  end.

(** The timer [Delay_us] runs on. *)
Definition SysTick : SysTick_access SysTick_Type :=
  {| store_LOAD := write_LOAD;
     store_VAL  := write_VAL;
     store_CTRL := write_CTRL;
     load_CTRL  := read_CTRL;
     elapse     := clocks |}.

(** The registers as [Delay_us] leaves them ahead of its wait: reload value
    [l], counter cleared, COUNTFLAG cleared, counter enabled on HCLK. *)
Definition armed (l : Z) : SysTick_Type :=
  {| CTRL := 0x00000005; LOAD := l; VAL := 0 |}.

(** The registers [j] clocks later, while the first countdown is under
    way ([1 <= j <= l]). *)
Definition counting (l : Z) (j : Z) : SysTick_Type :=
  {| CTRL := 0x00000005; LOAD := l; VAL := l + 1 - j |}.

(** ** Delay.c: [Delay_ms] and [Delay_s]

    Both are [while(x--) { callee(1000); }] loops.  They are written once,
    over any machine state and any meaning of the callee. *)

(** [while(x--) body;] for a [uint32_t x]: the old value of [x] is tested,
    [x] is decremented modulo [2^32], and the body runs when the old value
    was not 0. *)
Fixpoint while_postdec {M : Type} (fuel : nat) (x : Z)
  (body : M -> option M) (m : M) : option M :=
  match fuel with
  | O => None
  | S fuel' =>
      if x =? 0 then Some m
      else
        match body m with
        | Some m' => while_postdec fuel' (uint32 (x - 1)) body m'
        | None => None
        end
  end.

Definition Delay_ms {M : Type} (Delay_us : Z -> M -> option M)
  (fuel : nat) (xms : Z) (m : M) : option M :=
  while_postdec fuel xms (Delay_us 1000) m.

Definition Delay_s {M : Type} (Delay_us : Z -> M -> option M)
  (fuel : nat) (xs : Z) (m : M) : option M :=
  while_postdec fuel xs (Delay_ms Delay_us fuel 1000) m.

(** [n] successive invocations of [f]. *)
Fixpoint invocations {M : Type} (n : nat) (f : M -> option M) (m : M)
  : option M :=
  match n with
  | O => Some m
  | S k =>
      match f m with
      | Some m' => invocations k f m'
      | None => None
      end
  end.

(** The callee seen from outside: an invocation of [Delay_us] adds one
    event to the call trace. *)
Definition Delay_us_call (xus : Z) (t : trace) : option trace :=
  Some (t ++ [Call_Delay_us xus]).

(** ** LED.c

    [RCC] and [GPIOB] are an [RCC_TypeDef] and a [GPIO_TypeDef] of the
    vendor header; the records hold the registers the wrappers use.  In
    [ODR], the output data register, bit [n] is the level of pin PB[n].
    [BSRR] is write-only and holds no state of its own: a word written to
    it sets the [ODR] bits named by its low half and resets those named
    by its high half. *)

Record RCC_TypeDef : Type := mkRCC
  { AHB1ENR : Z }.

Record GPIO_TypeDef : Type := mkGPIO
  { MODER   : Z;
    OTYPER  : Z;
    OSPEEDR : Z;
    PUPDR   : Z;
    ODR     : Z }.

Record ports : Type := mkPorts
  { RCC   : RCC_TypeDef;
    GPIOB : GPIO_TypeDef }.

(** [RCC_AHB1ENR_GPIOBEN] is a macro of the vendor header; its value is
    the one spelled out in the alternative line [LED_Init] keeps as a
    comment, [(0x01 << 1)]. *)
Definition RCC_AHB1ENR_GPIOBEN : Z := Z.shiftl 0x01 1.

Definition set_ODR (v : Z) (g : GPIO_TypeDef) : GPIO_TypeDef :=
  {| MODER := MODER g; OTYPER := OTYPER g; OSPEEDR := OSPEEDR g;
     PUPDR := PUPDR g; ODR := v |}.

(** [GPIOB->BSRR = v;] *)
Definition write_BSRR (v : Z) (g : GPIO_TypeDef) : GPIO_TypeDef :=
  set_ODR
    (uint32 (Z.lor (Z.land (ODR g) (Z.lnot (Z.shiftr v 16)))
                   (Z.land v 0xFFFF)))
    g.

Definition on_GPIOB (f : GPIO_TypeDef -> GPIO_TypeDef) (p : ports) : ports :=
  {| RCC := RCC p; GPIOB := f (GPIOB p) |}.

(** [void LED_Init()], statement by statement. *)
Definition LED_Init (p : ports) : ports :=
  let rcc := {| AHB1ENR := uint32 (Z.lor (AHB1ENR (RCC p)) RCC_AHB1ENR_GPIOBEN) |} in
  let g := GPIOB p in
  let moder := uint32 (Z.land (MODER g) (uint32 (Z.lnot (Z.shiftl 3 (2 * 2))))) in
  let moder := uint32 (Z.lor moder (Z.shiftl 1 (2 * 2))) in
  let moder := uint32 (Z.land moder (uint32 (Z.lnot (Z.shiftl 3 (2 * 8))))) in
  let moder := uint32 (Z.lor moder (Z.shiftl 1 (2 * 8))) in
  let otyper := uint32 (Z.land (OTYPER g) (uint32 (Z.lnot (Z.shiftl 1 2)))) in
  let pupdr := uint32 (Z.land (PUPDR g) (uint32 (Z.lnot (Z.shiftl 3 (2 * 2))))) in
  let otyper := uint32 (Z.land otyper (uint32 (Z.lnot (Z.shiftl 1 8)))) in
  let pupdr := uint32 (Z.land pupdr (uint32 (Z.lnot (Z.shiftl 3 (2 * 8))))) in
  let ospeedr := uint32 (Z.lor (OSPEEDR g) (Z.shiftl 0x03 (2 * 2))) in
  let ospeedr := uint32 (Z.lor ospeedr (Z.shiftl 0x03 (2 * 8))) in
  let odr := uint32 (Z.land (ODR g) (Z.lnot (Z.shiftl 0x01 2))) in
  {| RCC := rcc;
     GPIOB := write_BSRR (uint32 (Z.shiftl 1 8))
                {| MODER := moder; OTYPER := otyper; OSPEEDR := ospeedr;
                   PUPDR := pupdr; ODR := odr |} |}.

(** [GPIOB->BSRR = (1U << (8 + 16));] *)
Definition LED_On_1 (p : ports) : ports :=
  on_GPIOB (write_BSRR (uint32 (Z.shiftl 1 (8 + 16)))) p.

(** [GPIOB->BSRR = (1U << 8);] *)
Definition LED_Off_1 (p : ports) : ports :=
  on_GPIOB (write_BSRR (uint32 (Z.shiftl 1 8))) p.

(** [GPIOB->ODR |= ( 0x01 << 2);] *)
Definition LED_On_2 (p : ports) : ports :=
  on_GPIOB (fun g => set_ODR (uint32 (Z.lor (ODR g) (Z.shiftl 0x01 2))) g) p.

(** [GPIOB->ODR &= ~ (0x01 << 2);] *)
Definition LED_Off_2 (p : ports) : ports :=
  on_GPIOB
    (fun g => set_ODR (uint32 (Z.land (ODR g) (Z.lnot (Z.shiftl 0x01 2)))) g)
    p.

(** Level of pin PB2, the PWM output (LED2, lit when high). *)
Definition PB2 (p : ports) : bool := Z.testbit (ODR (GPIOB p)) 2.

(** Level of pin PB8 (LED1, lit when low). *)
Definition PB8 (p : ports) : bool := Z.testbit (ODR (GPIOB p)) 8.

(** ** main.c *)

Definition PWM_CYCLE      : Z := 500.
Definition BRIGHTNESS_MAX : Z := 255.
Definition UPDATE_EVERY   : Z := 15.
Definition STEP           : Z := 1.

(** The three [static int] variables of [main]. *)
Record BreathState : Type := mkBreath
  { brightness : Z;
    direction  : Z;
    counter    : Z }.

(** [static int brightness = 0; static int direction = 1;
     static int counter = 0;] *)
Definition initial_state : BreathState :=
  {| brightness := 0; direction := 1; counter := 0 |}.

(** [int on_time = (brightness * PWM_CYCLE) / BRIGHTNESS_MAX;]
    The division of [int]s truncates toward zero. *)
Definition on_time (b : Z) : Z :=
  int32 (Z.quot (int32 (b * PWM_CYCLE)) BRIGHTNESS_MAX).

(** [int off_time = PWM_CYCLE - on_time;] *)
Definition off_time (b : Z) : Z :=
  int32 (PWM_CYCLE - on_time b).

(** One PWM period:
    [if(on_time > 0) { LED_On_2(); Delay_us(on_time); }
     if(off_time > 0) { LED_Off_2(); Delay_us(off_time); }]
    The [int] argument is converted to the [uint32_t] parameter. *)
Definition pwm_period (b : Z) : trace :=
  (if on_time b >? 0
   then [Call_LED_On_2; Call_Delay_us (uint32 (on_time b))]
   else [])
  ++
  (if off_time b >? 0
   then [Call_LED_Off_2; Call_Delay_us (uint32 (off_time b))]
   else []).

(** The brightness the update computes ahead of the boundary check:
    [brightness += direction * STEP;] *)
Definition stepped_brightness (s : BreathState) : Z :=
  int32 (brightness s + int32 (direction s * STEP)).

(** The body of [if(++counter >= UPDATE_EVERY) { ... }]:
    [counter = 0; brightness += direction * STEP;] and the boundary
    check. *)
Definition update_brightness (s : BreathState) : BreathState * trace :=
  let b := stepped_brightness s in
  if b >=? 255 then
    ({| brightness := 255; direction := -1; counter := 0 |},
     [Call_LED_On_1])
  else if b <=? 0 then
    ({| brightness := 0; direction := 1; counter := 0 |},
     [Call_LED_Off_1])
  else
    ({| brightness := b; direction := direction s; counter := 0 |}, []).

(** Does this iteration update the brightness?  [++counter >= UPDATE_EVERY] *)
Definition updates (s : BreathState) : bool :=
  int32 (counter s + 1) >=? UPDATE_EVERY.

(** One iteration of [while(1) { ... }]. *)
Definition main_loop_body (s : BreathState) : BreathState * trace :=
  let t := pwm_period (brightness s) in
  if updates s then
    let (s', t') := update_brightness s in (s', t ++ t')
  else
    ({| brightness := brightness s;
        direction := direction s;
        counter := int32 (counter s + 1) |}, t).

Definition next (s : BreathState) : BreathState := fst (main_loop_body s).

Definition emitted (s : BreathState) : trace := snd (main_loop_body s).

(** [n] iterations of the loop: the state reached and the calls made. *)
Fixpoint main_loop (n : nat) (s : BreathState) : BreathState * trace :=
  match n with
  | O => (s, [])
  | S k =>
      let (s1, t1) := main_loop_body s in
      let (s2, t2) := main_loop k s1 in
      (s2, t1 ++ t2)
  end.

(** [main] followed for [n] iterations of its loop: [LED_Init();] and the
    loop from the initial values of the statics. *)
Definition main (n : nat) : BreathState * trace :=
  let (s, t) := main_loop n initial_state in (s, Call_LED_Init :: t).

(** The states the loop passes through. *)
Inductive reachable : BreathState -> Prop :=
| reachable_initial : reachable initial_state
| reachable_next s : reachable s -> reachable (next s).

(** What holds of the statics at the head of every iteration. *)
Definition ramp_invariant (s : BreathState) : Prop :=
  0 <= counter s < UPDATE_EVERY
  /\ ((direction s = 1 /\ 0 <= brightness s <= 254)
      \/ (direction s = -1 /\ 1 <= brightness s <= 255)).

(** A step changes the direction. *)
Definition flips (s : BreathState) : bool :=
  negb (direction (next s) =? direction s).

(** A step brings the brightness to a bound it was not at. *)
Definition touches_bound (s : BreathState) : bool :=
  negb (brightness (next s) =? brightness s)
  && ((brightness (next s) =? BRIGHTNESS_MAX) || (brightness (next s) =? 0)).

(** The states at the head of the first [n] iterations from [s]. *)
Fixpoint trajectory (n : nat) (s : BreathState) : list BreathState :=
  match n with
  | O => []
  | S k => s :: trajectory k (next s)
  end.

(** Number of steps among the first [n] from [s] that satisfy [p]. *)
Fixpoint count_steps (p : BreathState -> bool) (n : nat) (s : BreathState)
  : nat :=
  match n with
  | O => O
  | S k => ((if p s then 1 else 0) + count_steps p k (next s))%nat
  end.

(** ** The waveform on PB2

    The register level meaning of a call trace: the LED wrappers act on
    [GPIOB], and a [Delay_us(d)] holds the pin at its present level for the
    requested [d] microseconds. *)

Record waveform : Type := mkWave
  { port    : ports;
    high_us : Z;
    low_us  : Z }.

Definition on_port (f : ports -> ports) (w : waveform) : waveform :=
  {| port := f (port w); high_us := high_us w; low_us := low_us w |}.

Definition exec_event (w : waveform) (e : event) : waveform :=
  match e with
  | Call_LED_Init => on_port LED_Init w
  | Call_LED_On_1 => on_port LED_On_1 w
  | Call_LED_Off_1 => on_port LED_Off_1 w
  | Call_LED_On_2 => on_port LED_On_2 w
  | Call_LED_Off_2 => on_port LED_Off_2 w
  | Call_Delay_us d =>
      if PB2 (port w)
      then {| port := port w; high_us := high_us w + d; low_us := low_us w |}
      else {| port := port w; high_us := high_us w; low_us := low_us w + d |}
  end.

Definition exec_trace (t : trace) (w : waveform) : waveform :=
  fold_left exec_event t w.

Definition start_wave (p : ports) : waveform :=
  {| port := p; high_us := 0; low_us := 0 |}.

(** A port with GPIOB clocked and every output of it high. *)
Definition lit_ports : ports :=
  {| RCC := {| AHB1ENR := 0x00000002 |};
     GPIOB := {| MODER := 0x00010010; OTYPER := 0; OSPEEDR := 0x00030030;
                 PUPDR := 0; ODR := 0xFFFF |} |}.

(** ** The whole program on its peripherals

    Definitions used to state how the translation units work together. *)

(** [Delay_us] as [Delay_ms] and [Delay_s] call it on the Cortex-M4: the
    timer registers are the machine state, the count of loads is dropped. *)
Definition Delay_us_SysTick (SystemCoreClock : Z) (poll_cycles fuel : nat)
  (xus : Z) (s : SysTick_Type) : option SysTick_Type :=
  option_map snd (Delay_us SysTick SystemCoreClock poll_cycles fuel xus s).

(** The microseconds a call trace asks [Delay_us] for, in all. *)
Fixpoint requested_us (t : trace) : Z :=
  match t with
  | [] => 0
  | Call_Delay_us d :: t' => d + requested_us t'
  | _ :: t' => requested_us t'
  end.

(** Iterations of one breathing cycle: up from 0 to 255 and down again, one
    brightness step every [UPDATE_EVERY] iterations. *)
Definition breath_cycle : nat := (2 * (15 * 255))%nat.

(** The statics at the head of iteration [m] of a breathing cycle, in
    closed form. *)
Definition ramp_state (m : Z) : BreathState :=
  {| brightness := if m <=? 3825 then m / 15 else 255 - (m - 3825) / 15;
     direction := if m <? 3825 then 1 else -1;
     counter := m mod 15 |}.

Definition BreathState_eqb (a b : BreathState) : bool :=
  (brightness a =? brightness b) && (direction a =? direction b)
  && (counter a =? counter b).

(* ================================================================= *)
(** * Part II: properties *)
(* ================================================================= *)

(** ** 32-bit integers *)

Lemma uint32_small z : is_uint32 z -> uint32 z = z.
Proof. unfold is_uint32, uint32. intros H. apply Z.mod_small. exact H. Qed.

Lemma uint32_range z : is_uint32 (uint32 z).
Proof. unfold is_uint32, uint32. apply Z.mod_pos_bound. lia. Qed.

Lemma int32_small z : is_int32 z -> int32 z = z.
Proof.
  unfold is_int32, int32. intros H.
  rewrite Z.mod_small by lia. lia.
Qed.

Lemma int32_range z : is_int32 (int32 z).
Proof.
  unfold is_int32, int32.
  pose proof (Z.mod_pos_bound (z + 2 ^ 31) (2 ^ 32) ltac:(lia)). lia.
Qed.

(** Rewrites away the wrap-around of values that fit. *)
Ltac fits :=
  repeat match goal with
    | |- context [int32 ?z] =>
        rewrite (int32_small z) by (unfold is_int32; lia)
    | |- context [uint32 ?z] =>
        rewrite (uint32_small z) by (unfold is_uint32; lia)
    end.

(** ** The counter load of [Delay_us] *)

Lemma Delay_us_load_range clk xus :
  0 <= Delay_us_load clk xus <= COUNTER_MAX.
Proof.
  unfold Delay_us_load, Delay_us_ticks, COUNTER_MAX.
  pose proof (uint32_range (clk / 1000000 * xus)) as H.
  unfold is_uint32 in H.
  destruct (Z.gtb_spec (uint32 (clk / 1000000 * xus)) 0xFFFFFF); lia.
Qed.

(** In range, the product fits the counter and is loaded unchanged. *)
Lemma Delay_us_load_exact clk xus :
  0 <= clk / 1000000 * xus <= COUNTER_MAX ->
  Delay_us_load clk xus = clk / 1000000 * xus.
Proof.
  unfold Delay_us_load, Delay_us_ticks, COUNTER_MAX. intros H.
  fits.
  destruct (Z.gtb_spec (clk / 1000000 * xus) 0xFFFFFF); lia.
Qed.

(** Above the counter but below the word size, the clamp engages. *)
Lemma Delay_us_load_clamped clk xus :
  COUNTER_MAX < clk / 1000000 * xus < 2 ^ 32 ->
  Delay_us_load clk xus = COUNTER_MAX.
Proof.
  unfold Delay_us_load, Delay_us_ticks, COUNTER_MAX. intros H.
  fits.
  destruct (Z.gtb_spec (clk / 1000000 * xus) 0xFFFFFF); lia.
Qed.


Lemma Delay_us_load_zero clk : Delay_us_load clk 0 = 0.
Proof.
  unfold Delay_us_load, Delay_us_ticks, uint32.
  rewrite Z.mul_0_r. reflexivity.
Qed.

(** The header documents 1..1000000 microseconds as the parameter range
    of [Delay_us]: there no clock frequency makes the product wrap, and the
    load is the product or the counter maximum. *)
Lemma Delay_us_load_documented_range clk xus :
  is_uint32 clk -> 1 <= xus <= 1000000 ->
  Delay_us_load clk xus = Z.min (clk / 1000000 * xus) COUNTER_MAX.
Proof.
  unfold is_uint32. intros Hc Hx.
  assert (0 <= clk / 1000000 <= 4294) as Hq.
  { split.
    - apply Z.div_pos; lia.
    - enough (clk / 1000000 < 4295) by lia.
      apply Z.div_lt_upper_bound; lia. }
  assert (0 <= clk / 1000000 * xus < 2 ^ 32) as Hp by nia.
  destruct (Z.le_gt_cases (clk / 1000000 * xus) COUNTER_MAX) as [Hle | Hgt].
  - rewrite Delay_us_load_exact by lia. lia.
  - rewrite Delay_us_load_clamped by lia. lia.
Qed.

(** C3, at the input where the code departs from it.  At the 168 MHz of
    the F407 a request of 25,565,282 microseconds is far beyond what the
    24-bit counter can hold (the product is 4,294,967,376 ticks), yet the
    value stored in the reload register is 80 and not the counter maximum
    0xFFFFFF: the product has been reduced modulo 2^32 before the clamp
    compares it.  Requests whose product stays below 2^32, such as
    10,000,000 microseconds, are clamped. *)
Theorem Delay_us_load_not_clamped_168MHz :
  COUNTER_MAX < 168000000 / 1000000 * 25565282
  /\ Delay_us_load 168000000 25565282 = 80
  /\ Delay_us_load 168000000 25565282 <> COUNTER_MAX
  /\ Delay_us_load 168000000 10000000 = COUNTER_MAX.
Proof.
  repeat split; try reflexivity.
  vm_compute. discriminate.
Qed.

(** ** The busy-wait of [Delay_us] on the SysTick counter *)

Lemma COUNTFLAG_cleared_by_VAL c :
  Z.land (Z.land c (Z.lnot SysTick_CTRL_COUNTFLAG)) SysTick_CTRL_COUNTFLAG = 0.
Proof.
  rewrite <- Z.land_assoc.
  replace (Z.land (Z.lnot SysTick_CTRL_COUNTFLAG) SysTick_CTRL_COUNTFLAG)
    with 0 by reflexivity.
  apply Z.land_0_r.
Qed.

Lemma Delay_us_arms clk xus s :
  write_CTRL 0x00000005
    (write_VAL 0x00 (write_LOAD (Delay_us_load clk xus) s))
  = armed (Delay_us_load clk xus).
Proof.
  unfold write_CTRL, write_VAL, write_LOAD, armed. cbn [CTRL LOAD VAL].
  rewrite COUNTFLAG_cleared_by_VAL.
  f_equal.
  pose proof (Delay_us_load_range clk xus) as H.
  change COUNTER_MAX with (Z.ones 24) in *.
  rewrite Z.land_ones by lia.
  apply Z.mod_small. rewrite Z.ones_equiv in H. lia.
Qed.

Lemma clocks_add a b s : clocks (a + b) s = clocks b (clocks a s).
Proof.
  revert s. induction a as [|a IH]; intros s; cbn; [reflexivity|].
  apply IH.
Qed.

(** *** A reload value of 0 *)

Lemma clock_armed_0 : clock (armed 0) = armed 0.
Proof. reflexivity. Qed.

Lemma clocks_armed_0 n : clocks n (armed 0) = armed 0.
Proof.
  induction n as [|n IH]; cbn [clocks]; [reflexivity|].
  rewrite clock_armed_0. exact IH.
Qed.

Lemma wait_COUNTFLAG_step k fuel reads s :
  wait_COUNTFLAG SysTick k (S fuel) reads s =
  if Z.land (CTRL (clocks k s)) 0x00010000 =? 0
  then wait_COUNTFLAG SysTick k fuel (S reads) (snd (read_CTRL (clocks k s)))
  else Some (S reads, snd (read_CTRL (clocks k s))).
Proof. reflexivity. Qed.

Lemma wait_COUNTFLAG_armed_0 k fuel reads :
  wait_COUNTFLAG SysTick k fuel reads (armed 0) = None.
Proof.
  revert reads. induction fuel as [|fuel IH]; intros reads.
  - reflexivity.
  - rewrite wait_COUNTFLAG_step, clocks_armed_0.
    change (Z.land (CTRL (armed 0)) 65536 =? 0) with true. cbv iota.
    change (snd (read_CTRL (armed 0))) with (armed 0).
    apply IH.
Qed.

(** However many clocks go by, COUNTFLAG stays down. *)
Lemma clocks_armed_0_COUNTFLAG n : COUNTFLAG (clocks n (armed 0)) = false.
Proof. rewrite clocks_armed_0. reflexivity. Qed.

(** *** COUNTFLAG and the wait *)

(** Only a read clears COUNTFLAG: once raised it survives the clocks. *)
Lemma clock_keeps_COUNTFLAG s :
  CTRL s = 0x00010005 -> CTRL (clock s) = 0x00010005.
Proof.
  intros H. unfold clock, ENABLE. rewrite H.
  change (negb (Z.land 65541 SysTick_CTRL_ENABLE =? 0)) with true. cbv iota.
  destruct (VAL s =? 0); [reflexivity|].
  destruct (VAL s =? 1); reflexivity.
Qed.

Lemma clocks_keep_COUNTFLAG n s :
  CTRL s = 0x00010005 -> CTRL (clocks n s) = 0x00010005.
Proof.
  revert s. induction n as [|n IH]; intros s H; cbn [clocks]; [exact H|].
  apply IH, clock_keeps_COUNTFLAG, H.
Qed.

(** *** A reload value of at least 1 *)

Section Countdown.

Variable l : Z.
Hypothesis l_pos : 1 <= l.

Lemma clock_armed : clock (armed l) = counting l 1.
Proof using l_pos.
  unfold clock, armed, counting, ENABLE. cbn.
  f_equal. lia.
Qed.

Lemma clock_counting j :
  1 <= j < l -> clock (counting l j) = counting l (j + 1).
Proof using Type.
  intros Hj. unfold clock, counting, ENABLE. cbn [CTRL LOAD VAL].
  change (negb (Z.land 5 SysTick_CTRL_ENABLE =? 0)) with true. cbv iota.
  destruct (Z.eqb_spec (l + 1 - j) 0); [lia|].
  destruct (Z.eqb_spec (l + 1 - j) 1); [lia|].
  f_equal. lia.
Qed.

(** The last clock of the countdown takes the counter from 1 to 0 and
    raises COUNTFLAG. *)
Lemma clock_counting_last :
  clock (counting l l) = {| CTRL := 0x00010005; LOAD := l; VAL := 0 |}.
Proof using Type.
  unfold clock, counting, ENABLE. cbn [CTRL LOAD VAL].
  change (negb (Z.land 5 SysTick_CTRL_ENABLE =? 0)) with true. cbv iota.
  destruct (Z.eqb_spec (l + 1 - l) 0); [lia|].
  destruct (Z.eqb_spec (l + 1 - l) 1); [|lia].
  reflexivity.
Qed.

Lemma clocks_counting n j :
  1 <= j -> j + Z.of_nat n <= l ->
  clocks n (counting l j) = counting l (j + Z.of_nat n).
Proof using Type.
  revert j. induction n as [|n IH]; intros j Hj Hn.
  - cbn [clocks]. f_equal. lia.
  - cbn [clocks]. rewrite clock_counting by lia.
    rewrite IH by lia. f_equal. lia.
Qed.

(** [n >= 1] clocks after arming, the countdown is under way as long as
    [n <= l] ... *)
Lemma clocks_armed_counting n :
  1 <= Z.of_nat n <= l ->
  clocks n (armed l) = counting l (Z.of_nat n).
Proof using l_pos.
  intros Hn. destruct n as [|n]; [lia|].
  cbn [clocks]. rewrite clock_armed.
  rewrite clocks_counting by lia. f_equal. lia.
Qed.

(** ... and from [l + 1] clocks on COUNTFLAG is up. *)
Lemma clocks_armed_expired n :
  l < Z.of_nat n ->
  CTRL (clocks n (armed l)) = 0x00010005.
Proof using l_pos.
  intros Hn.
  replace n with (Z.to_nat l + (1 + (n - Z.to_nat l - 1)))%nat by lia.
  rewrite clocks_add, clocks_armed_counting by lia.
  rewrite Z2Nat.id by lia.
  rewrite clocks_add. cbn [clocks Nat.add].
  rewrite clock_counting_last.
  apply clocks_keep_COUNTFLAG. reflexivity.
Qed.

(** Clocks of the counter between two reads of [CTRL]: at least one. *)
Variable k : nat.
Hypothesis k_pos : (1 <= k)%nat.

(** With a counter that advances between two reads, the wait ends: at the
    first read that comes more than [l] clocks after arming.  [e] is the
    number of clocks gone by so far. *)
Lemma wait_COUNTFLAG_armed fuel :
  forall e reads,
    Z.of_nat e <= l < Z.of_nat (e + fuel * k) ->
    exists n s',
      wait_COUNTFLAG SysTick k fuel reads (clocks e (armed l))
      = Some ((reads + n)%nat, s')
      /\ (1 <= n <= fuel)%nat
      /\ Z.of_nat (e + (n - 1) * k) <= l < Z.of_nat (e + n * k).
Proof using l_pos k_pos.
  induction fuel as [|fuel IH]; intros e reads He.
  - cbn in He. lia.
  - rewrite wait_COUNTFLAG_step, <- clocks_add.
    destruct (Z.le_gt_cases (Z.of_nat (e + k)) l) as [Hin | Hout].
    + rewrite clocks_armed_counting by lia.
      change (Z.land (CTRL (counting l (Z.of_nat (e + k)))) 65536 =? 0)
        with true.
      cbv iota.
      change (snd (read_CTRL (counting l (Z.of_nat (e + k)))))
        with (counting l (Z.of_nat (e + k))).
      rewrite <- clocks_armed_counting by lia.
      destruct (IH (e + k)%nat (S reads)) as (n & s' & Hw & Hn & Hb).
      { split; [lia|]. destruct He as [_ He].
        replace (e + k + fuel * k)%nat with (e + S fuel * k)%nat by lia.
        exact He. }
      exists (S n), s'. split; [|split].
      * rewrite Hw. f_equal. f_equal. lia.
      * lia.
      * replace (e + (S n - 1) * k)%nat with (e + k + (n - 1) * k)%nat by nia.
        replace (e + S n * k)%nat with (e + k + n * k)%nat by lia.
        exact Hb.
    + rewrite clocks_armed_expired by lia.
      change (Z.land 65541 65536 =? 0) with false. cbv iota.
      exists 1%nat. eexists. split; [|split].
      * f_equal. f_equal. lia.
      * lia.
      * cbn [Nat.sub Nat.mul]. rewrite !Nat.add_0_r. lia.
Qed.

End Countdown.

(** [Delay_us] returns when its load is at least 1, and then the wait has
    lasted more than [load] counter clocks. *)
Lemma Delay_us_returns clk k xus s :
  (1 <= k)%nat -> Delay_us_load clk xus <> 0 ->
  exists fuel reads s',
    Delay_us SysTick clk k fuel xus s = Some (reads, s')
    /\ Z.of_nat ((reads - 1) * k) <= Delay_us_load clk xus < Z.of_nat (reads * k).
Proof.
  intros Hk Hl.
  pose proof (Delay_us_load_range clk xus) as Hr.
  set (l := Delay_us_load clk xus) in *.
  destruct (wait_COUNTFLAG_armed l ltac:(lia) k Hk (S (Z.to_nat l)) 0%nat 0%nat)
    as (n & s' & Hw & Hn & Hb).
  { cbn [Nat.add]. nia. }
  exists (S (Z.to_nat l)), n, (write_CTRL 0x00000004 s').
  split.
  - unfold Delay_us. cbv zeta.
    cbn [SysTick store_LOAD store_VAL store_CTRL].
    rewrite Delay_us_arms. fold l.
    cbn [clocks] in Hw. rewrite Hw. reflexivity.
  - cbn [Nat.add] in Hb. exact Hb.
Qed.

(** A request whose load is 0 arms the counter with a reload value of 0
    and then waits for a COUNTFLAG that is never raised. *)
Lemma Delay_us_load_0_hangs clk k fuel xus s :
  Delay_us_load clk xus = 0 -> Delay_us SysTick clk k fuel xus s = None.
Proof.
  intros H0. unfold Delay_us. cbv zeta.
  cbn [SysTick store_LOAD store_VAL store_CTRL].
  rewrite Delay_us_arms, H0.
  rewrite wait_COUNTFLAG_armed_0. reflexivity.
Qed.

(** More fuel does not change a wait that has ended. *)
Lemma wait_COUNTFLAG_fuel_mono k fuel fuel' reads s r :
  (fuel <= fuel')%nat ->
  wait_COUNTFLAG SysTick k fuel reads s = Some r ->
  wait_COUNTFLAG SysTick k fuel' reads s = Some r.
Proof.
  revert fuel' reads s.
  induction fuel as [|fuel IH]; intros fuel' reads s Hle Hw.
  - discriminate.
  - destruct fuel' as [|fuel']; [lia|].
    rewrite wait_COUNTFLAG_step in *.
    destruct (Z.land (CTRL (clocks k s)) 65536 =? 0).
    + apply IH; [lia | exact Hw].
    + exact Hw.
Qed.

Lemma Delay_us_fuel_mono clk k fuel fuel' xus s r :
  (fuel <= fuel')%nat ->
  Delay_us SysTick clk k fuel xus s = Some r ->
  Delay_us SysTick clk k fuel' xus s = Some r.
Proof.
  unfold Delay_us. cbv zeta. intros Hle.
  destruct (wait_COUNTFLAG SysTick k fuel 0 _) as [[n s1]|] eqn:Hw;
    [|discriminate].
  rewrite (wait_COUNTFLAG_fuel_mono _ _ _ _ _ _ Hle Hw). auto.
Qed.

(** [Delay_us] has no separate path for an argument of 0: it stores the
    load 0 in the reload register, starts the counter and polls COUNTFLAG
    as for any other request.  A SysTick counter with reload value 0 stays
    at 0 and never raises COUNTFLAG, so the call does not return, however
    many times [CTRL] is read.  [Delay_us] returns exactly for the requests
    whose load is not 0, and then only after more than [load] counter
    clocks. *)
Theorem Delay_us_returns_iff_load_nonzero clk k xus s :
  (1 <= k)%nat ->
  (forall fuel, Delay_us SysTick clk k fuel 0 s = None)
  /\ ((exists fuel r, Delay_us SysTick clk k fuel xus s = Some r)
      <-> Delay_us_load clk xus <> 0)
  /\ (forall fuel reads s',
        Delay_us SysTick clk k fuel xus s = Some (reads, s') ->
        Delay_us_load clk xus < Z.of_nat (reads * k)).
Proof.
  intros Hk. split; [|split].
  - intros fuel. apply Delay_us_load_0_hangs, Delay_us_load_zero.
  - split.
    + intros (fuel & r & Hr) H0.
      rewrite (Delay_us_load_0_hangs _ _ _ _ _ H0) in Hr. discriminate.
    + intros Hl.
      destruct (Delay_us_returns clk k xus s Hk Hl) as (fuel & reads & s' & Hd & _).
      exists fuel, (reads, s'). exact Hd.
  - intros fuel reads s' Hd.
    destruct (Z.eq_dec (Delay_us_load clk xus) 0) as [H0 | Hl].
    + rewrite (Delay_us_load_0_hangs _ _ _ _ _ H0) in Hd. discriminate.
    + destruct (Delay_us_returns clk k xus s Hk Hl)
        as (fuel0 & reads0 & s0 & Hd0 & _ & Hb).
      apply (Delay_us_fuel_mono _ _ _ (Nat.max fuel fuel0)) in Hd; [|lia].
      apply (Delay_us_fuel_mono _ _ _ (Nat.max fuel fuel0)) in Hd0; [|lia].
      rewrite Hd in Hd0. injection Hd0 as -> _. exact Hb.
Qed.

Lemma Delay_us_returns_iff_load_nonzero_witness :
  (1 <= 1)%nat
  /\ Delay_us SysTick 168000000 1 1000 0 (armed 0) = None
  /\ Delay_us_load 168000000 1 <> 0
  /\ exists fuel r, Delay_us SysTick 168000000 1 fuel 1 (armed 0) = Some r.
Proof.
  pose proof (Delay_us_returns_iff_load_nonzero 168000000 1 1 (armed 0)
                (Nat.le_refl 1)) as (H0 & Hiff & _).
  assert (Delay_us_load 168000000 1 <> 0) as Hl by (vm_compute; discriminate).
  split; [apply Nat.le_refl|].
  split; [apply H0|].
  split; [exact Hl|].
  apply Hiff, Hl.
Defined.


(** C7, at the input where the code departs from it.  With an argument
    of 0 the load is 0 whatever the clock; at the 168 MHz of the F407
    [Delay_us(0)] does not return: whatever the SysTick registers held,
    however many counter clocks go by between two reads of [CTRL] and
    however many times [CTRL] is read, the call is still in its busy-wait.
    The sibling [Delay_ms] returns at once for an argument of 0. *)
Theorem Delay_us_0_does_not_return :
  Delay_us_load 168000000 0 = 0
  /\ (forall k fuel s, Delay_us SysTick 168000000 k fuel 0 s = None)
  /\ ~ (exists fuel r, Delay_us SysTick 168000000 1 fuel 0 (armed 0) = Some r)
  /\ (forall fuel t, Delay_ms Delay_us_call (S fuel) 0 t = Some t).
Proof.
  split; [reflexivity|]. split; [|split].
  - intros k fuel s. apply Delay_us_load_0_hangs. reflexivity.
  - intros (fuel & r & H).
    rewrite Delay_us_load_0_hangs in H by reflexivity. discriminate.
  - intros fuel t. reflexivity.
Qed.




(** ** [Delay_ms] and [Delay_s] *)

Lemma invocations_add {M : Type} a b (f : M -> option M) m :
  invocations (a + b) f m =
  match invocations a f m with
  | Some m' => invocations b f m'
  | None => None
  end.
Proof.
  revert m. induction a as [|a IH]; intros m; cbn; [reflexivity|].
  destruct (f m); [apply IH | reflexivity].
Qed.

(** [a] rounds of [b] invocations are [a * b] invocations. *)
Lemma invocations_mul {M : Type} a b (f : M -> option M) m :
  invocations a (invocations b f) m = invocations (a * b) f m.
Proof.
  revert m. induction a as [|a IH]; intros m; cbn [invocations Nat.mul].
  - reflexivity.
  - rewrite invocations_add.
    destruct (invocations b f m); [apply IH | reflexivity].
Qed.

Lemma invocations_ext {M : Type} n (f g : M -> option M) m :
  (forall x, f x = g x) -> invocations n f m = invocations n g m.
Proof.
  intros Hfg. revert m. induction n as [|n IH]; intros m; cbn; [reflexivity|].
  rewrite Hfg. destruct (g m); [apply IH | reflexivity].
Qed.

(** A [while(x--)] loop runs its body as many times as the value [x]
    holds on entry. *)
Lemma while_postdec_invocations {M : Type} fuel x (body : M -> option M) m :
  is_uint32 x -> (Z.to_nat x < fuel)%nat ->
  while_postdec fuel x body m = invocations (Z.to_nat x) body m.
Proof.
  unfold is_uint32. revert x m.
  induction fuel as [|fuel IH]; intros x m Hx Hf; [lia|].
  cbn [while_postdec].
  destruct (Z.eqb_spec x 0) as [-> | Hnz].
  - reflexivity.
  - replace (Z.to_nat x) with (S (Z.to_nat (x - 1))) by lia.
    cbn [invocations].
    destruct (body m) as [m'|]; [|reflexivity].
    fits. apply IH; lia.
Qed.

Lemma invocations_Delay_us_call n xus t :
  invocations n (Delay_us_call xus) t = Some (t ++ repeat (Call_Delay_us xus) n).
Proof.
  revert t. induction n as [|n IH]; intros t; cbn [invocations repeat].
  - rewrite app_nil_r. reflexivity.
  - unfold Delay_us_call at 1. rewrite IH, <- app_assoc. reflexivity.
Qed.

Lemma occurrences_repeat e n : event_eqb e e = true -> occurrences e (repeat e n) = n.
Proof.
  intros He. unfold occurrences.
  induction n as [|n IH]; cbn [repeat filter]; [reflexivity|].
  rewrite He. cbn [length]. f_equal. exact IH.
Qed.

(** C4: over any meaning of the callee,
    [Delay_ms(x)] is [x] successive invocations of [Delay_us(1000)], one
    per requested millisecond, the loop count being the argument;
    [Delay_s(x)] is [x] successive invocations of [Delay_ms(1000)], that is
    [1000 * x] invocations of [Delay_us(1000)]; with an argument of 0 both
    return without invoking anything.  On call traces: from the empty trace
    [Delay_ms(x)] leaves [x] calls of [Delay_us(1000)] and nothing else. *)
Theorem Delay_ms_Delay_s_invocations
  {M : Type} (callee : Z -> M -> option M) fuel x m :
  is_uint32 x -> (Z.to_nat x < fuel)%nat -> (1000 < fuel)%nat ->
  Delay_ms callee fuel x m = invocations (Z.to_nat x) (callee 1000) m
  /\ Delay_s callee fuel x m
     = invocations (Z.to_nat x) (Delay_ms callee fuel 1000) m
  /\ Delay_s callee fuel x m
     = invocations (Z.to_nat x * 1000) (callee 1000) m
  /\ Delay_ms callee fuel 0 m = Some m
  /\ Delay_s callee fuel 0 m = Some m
  /\ Delay_ms Delay_us_call fuel x []
     = Some (repeat (Call_Delay_us 1000) (Z.to_nat x)).
Proof.
  intros Hx Hf Hk.
  assert (forall y, Delay_ms callee fuel 1000 y = invocations 1000 (callee 1000) y)
    as Hms.
  { intros y. unfold Delay_ms.
    rewrite while_postdec_invocations; [reflexivity | unfold is_uint32; lia | lia]. }
  assert (Delay_s callee fuel x m
          = invocations (Z.to_nat x) (Delay_ms callee fuel 1000) m) as Hs.
  { unfold Delay_s. apply while_postdec_invocations; assumption. }
  repeat split.
  - unfold Delay_ms. apply while_postdec_invocations; assumption.
  - exact Hs.
  - rewrite Hs, (invocations_ext _ _ _ _ Hms). apply invocations_mul.
  - destruct fuel; [lia | reflexivity].
  - destruct fuel; [lia | reflexivity].
  - unfold Delay_ms. rewrite while_postdec_invocations by assumption.
    apply invocations_Delay_us_call.
Qed.

Lemma Delay_ms_Delay_s_invocations_witness :
  is_uint32 3 /\ (Z.to_nat 3 < 1001)%nat /\ (1000 < 1001)%nat
  /\ Delay_ms Delay_us_call 1001 3 []
     = Some [Call_Delay_us 1000; Call_Delay_us 1000; Call_Delay_us 1000]
  /\ Delay_s Delay_us_call 1001 3 []
     = invocations 3000 (Delay_us_call 1000) [].
Proof.
  assert (is_uint32 3) as Hx by (unfold is_uint32; lia).
  assert (Z.to_nat 3 < 1001)%nat as Hf by (cbn; lia).
  assert (1000 < 1001)%nat as Hk by lia.
  destruct (Delay_ms_Delay_s_invocations Delay_us_call 1001 3 [] Hx Hf Hk)
    as (_ & _ & Hs & _ & _ & Ht).
  split; [exact Hx|]. split; [exact Hf|]. split; [exact Hk|].
  split; [exact Ht | exact Hs].
Defined.

(** ** The duty split *)

Lemma on_time_exact b :
  0 <= b <= 255 -> on_time b = b * PWM_CYCLE / BRIGHTNESS_MAX.
Proof.
  unfold on_time, PWM_CYCLE, BRIGHTNESS_MAX. intros Hb.
  rewrite (int32_small (b * 500)) by (unfold is_int32; lia).
  rewrite Z.quot_div_nonneg by lia.
  assert (0 <= b * 500 / 255 <= 500) as Hq.
  { split.
    - apply Z.div_pos; lia.
    - apply Z.div_le_upper_bound; lia. }
  fits. reflexivity.
Qed.

Lemma on_time_range b : 0 <= b <= 255 -> 0 <= on_time b <= PWM_CYCLE.
Proof.
  intros Hb. rewrite on_time_exact by exact Hb.
  unfold PWM_CYCLE, BRIGHTNESS_MAX. split.
  - apply Z.div_pos; lia.
  - apply Z.div_le_upper_bound; lia.
Qed.

Lemma off_time_exact b :
  0 <= b <= 255 -> off_time b = PWM_CYCLE - on_time b.
Proof.
  intros Hb. pose proof (on_time_range b Hb) as Hr.
  unfold off_time, PWM_CYCLE in *. fits. reflexivity.
Qed.

(** C2: for a brightness [b] in [0,255] and the cycle length
    [PWM_CYCLE = 500], the on time is [b * PWM_CYCLE / 255] with integer
    division, the off time is the rest of the cycle, the two add up to the
    cycle and the off time is not negative. *)
Theorem duty_split b :
  0 <= b <= 255 ->
  PWM_CYCLE = 500
  /\ on_time b = b * PWM_CYCLE / 255
  /\ off_time b = PWM_CYCLE - on_time b
  /\ on_time b + off_time b = PWM_CYCLE
  /\ 0 <= off_time b.
Proof.
  intros Hb.
  pose proof (on_time_exact b Hb) as Hon.
  pose proof (on_time_range b Hb) as Hr.
  pose proof (off_time_exact b Hb) as Hoff.
  unfold BRIGHTNESS_MAX in Hon.
  repeat split; try assumption; try reflexivity; lia.
Qed.

Lemma duty_split_witness :
  0 <= 128 <= 255 /\ on_time 128 = 250 /\ off_time 128 = 250.
Proof.
  assert (0 <= 128 <= 255) as Hb by lia.
  destruct (duty_split 128 Hb) as (_ & Hon & Hoff & _).
  split; [exact Hb|]. split; [exact Hon | exact Hoff].
Defined.

(** ** The state of the breathing loop *)

(** Exposes the arithmetic of one iteration. *)
Ltac step_cases :=
  unfold next, emitted, main_loop_body, update_brightness, updates,
    stepped_brightness, UPDATE_EVERY, STEP, BRIGHTNESS_MAX in *;
  cbn [brightness direction counter fst snd] in *;
  fits;
  repeat match goal with
    | |- context [?a >=? ?b] => destruct (Z.geb_spec a b)
    | |- context [?a <=? ?b] => destruct (Z.leb_spec a b)
    end;
  cbn [brightness direction counter fst snd] in *.

Lemma ramp_invariant_initial : ramp_invariant initial_state.
Proof. unfold ramp_invariant, initial_state, UPDATE_EVERY. cbn. lia. Qed.

Lemma ramp_invariant_next s : ramp_invariant s -> ramp_invariant (next s).
Proof.
  unfold ramp_invariant. destruct s as [b d c].
  cbn [brightness direction counter].
  intros (Hc & [(-> & Hb) | (-> & Hb)]); step_cases; lia.
Qed.

Lemma reachable_ramp_invariant s : reachable s -> ramp_invariant s.
Proof.
  induction 1 as [|s _ IH].
  - apply ramp_invariant_initial.
  - apply ramp_invariant_next, IH.
Qed.

(** One step from a state of the ramp, case by case. *)
Lemma next_cases s :
  ramp_invariant s ->
  (counter s < 14
   /\ next s = {| brightness := brightness s; direction := direction s;
                  counter := counter s + 1 |})
  \/ (counter s = 14 /\ direction s = 1 /\ brightness s = 254
      /\ next s = {| brightness := 255; direction := -1; counter := 0 |})
  \/ (counter s = 14 /\ direction s = 1 /\ brightness s < 254
      /\ next s = {| brightness := brightness s + 1; direction := 1;
                     counter := 0 |})
  \/ (counter s = 14 /\ direction s = -1 /\ brightness s = 1
      /\ next s = {| brightness := 0; direction := 1; counter := 0 |})
  \/ (counter s = 14 /\ direction s = -1 /\ 1 < brightness s
      /\ next s = {| brightness := brightness s - 1; direction := -1;
                     counter := 0 |}).
Proof.
  unfold ramp_invariant. destruct s as [b d c].
  cbn [brightness direction counter].
  intros (Hc & [(-> & Hb) | (-> & Hb)]); step_cases;
    try lia;
    first
      [ left; split; [lia | reflexivity]
      | right; left; repeat split; (lia || reflexivity)
      | right; right; left; repeat split; (lia || (f_equal; lia))
      | right; right; right; left; repeat split; (lia || reflexivity)
      | right; right; right; right; repeat split; (lia || (f_equal; lia)) ].
Qed.

(** C1: in every state the loop reaches from brightness 0, direction +1,
    counter 0, the brightness lies in [0,255] and the direction is +1 or
    -1; and the step taken from that state changes the direction exactly
    when it brings the brightness to 255 or to 0 (a bound it was not at),
    in which case the direction is reversed. *)
Theorem breathing_invariant s :
  reachable s ->
  0 <= brightness s <= 255
  /\ (direction s = 1 \/ direction s = -1)
  /\ (direction (next s) <> direction s
      <-> brightness (next s) <> brightness s
          /\ (brightness (next s) = 255 \/ brightness (next s) = 0))
  /\ (direction (next s) <> direction s -> direction (next s) = - direction s).
Proof.
  intros Hr. pose proof (reachable_ramp_invariant s Hr) as Hinv.
  pose proof (next_cases s Hinv) as Hn.
  destruct Hinv as (Hc & Hd).
  split; [lia|]. split; [lia|].
  destruct Hn as [(H1 & ->) | [(H1 & H2 & H3 & ->) | [(H1 & H2 & H3 & ->)
                | [(H1 & H2 & H3 & ->) | (H1 & H2 & H3 & ->)]]]];
    cbn [brightness direction counter]; lia.
Qed.

Lemma breathing_invariant_witness :
  reachable initial_state
  /\ 0 <= brightness initial_state <= 255
  /\ direction initial_state = 1.
Proof.
  destruct (breathing_invariant initial_state reachable_initial) as (Hb & _).
  split; [apply reachable_initial|]. split; [exact Hb | reflexivity].
Defined.

(** ** Flips and bounds *)

Ltac eqb_cases :=
  repeat match goal with
    | |- context [?a =? ?b] => destruct (Z.eqb_spec a b)
    end;
  cbn [negb andb orb]; try reflexivity; try lia.

Lemma flips_touches_bound s :
  ramp_invariant s -> flips s = touches_bound s.
Proof.
  intros Hinv. pose proof (next_cases s Hinv) as Hn.
  destruct Hinv as (Hc & Hd).
  unfold flips, touches_bound, BRIGHTNESS_MAX.
  destruct Hn as [(H1 & ->) | [(H1 & H2 & H3 & ->) | [(H1 & H2 & H3 & ->)
                | [(H1 & H2 & H3 & ->) | (H1 & H2 & H3 & ->)]]]];
    cbn [brightness direction counter]; eqb_cases.
Qed.

Lemma count_steps_ext (p q : BreathState -> bool) n s :
  (forall x, ramp_invariant x -> p x = q x) ->
  ramp_invariant s ->
  count_steps p n s = count_steps q n s.
Proof.
  intros Hpq. revert s.
  induction n as [|n IH]; intros s Hs; cbn [count_steps]; [reflexivity|].
  rewrite (Hpq s Hs), (IH (next s) (ramp_invariant_next s Hs)). reflexivity.
Qed.

(** C9: in every step the loop takes from a state it reaches, the
    brightness does not decrease when the direction is +1 and does not
    increase when the direction is -1, and it stays in [0,255]; a step that
    brings the brightness to a bound reverses the direction, a step that
    does not leaves the direction alone, so that over any number of steps
    there are as many direction flips as there are touches of a bound. *)
Theorem brightness_monotone_one_flip_per_touch s :
  reachable s ->
  (direction s = 1 -> brightness s <= brightness (next s))
  /\ (direction s = -1 -> brightness (next s) <= brightness s)
  /\ 0 <= brightness (next s) <= 255
  /\ (touches_bound s = true -> direction (next s) = - direction s)
  /\ (touches_bound s = false -> direction (next s) = direction s)
  /\ (forall n, count_steps flips n s = count_steps touches_bound n s).
Proof.
  intros Hr. pose proof (reachable_ramp_invariant s Hr) as Hinv.
  pose proof (next_cases s Hinv) as Hn.
  pose proof (flips_touches_bound s Hinv) as Hft.
  assert (touches_bound s = true -> direction (next s) = - direction s) as Ht.
  { rewrite <- Hft. unfold flips. destruct Hinv as (_ & Hd).
    destruct Hn as [(H1 & ->) | [(H1 & H2 & H3 & ->) | [(H1 & H2 & H3 & ->)
                  | [(H1 & H2 & H3 & ->) | (H1 & H2 & H3 & ->)]]]];
      cbn [brightness direction counter];
      match goal with
      | |- context [?a =? ?b] => destruct (Z.eqb_spec a b)
      end; cbn [negb]; intros; (discriminate || lia). }
  assert (touches_bound s = false -> direction (next s) = direction s) as Hf.
  { rewrite <- Hft. unfold flips.
    destruct (Z.eqb_spec (direction (next s)) (direction s));
      cbn [negb]; intros; (discriminate || assumption). }
  destruct Hinv as (Hc & Hd).
  repeat split; try assumption.
  all: try (intros n; apply count_steps_ext;
            [apply flips_touches_bound | split; assumption]).
  all: destruct Hn as [(H1 & ->) | [(H1 & H2 & H3 & ->) | [(H1 & H2 & H3 & ->)
                     | [(H1 & H2 & H3 & ->) | (H1 & H2 & H3 & ->)]]]];
    cbn [brightness direction counter]; lia.
Qed.

Lemma brightness_monotone_one_flip_per_touch_witness :
  reachable initial_state
  /\ brightness initial_state <= brightness (next initial_state)
  /\ count_steps flips 4000 initial_state
     = count_steps touches_bound 4000 initial_state.
Proof.
  destruct (brightness_monotone_one_flip_per_touch initial_state
              reachable_initial) as (Hup & _ & _ & _ & _ & Hn).
  split; [apply reachable_initial|].
  split; [apply Hup; reflexivity | apply Hn].
Defined.

(** ** The ramp from 0 to 255 *)

(** C5: from brightness 0, direction +1, counter 0, with [STEP = 1] and
    [UPDATE_EVERY = 15], the state after [15 * 255] iterations has
    brightness 255 and direction -1, and [LED_On_1] has been called once
    in all.  It is the last of these iterations that does both: at the head
    of each of them the brightness is still below 255 and the direction
    still +1, the first [15 * 255 - 1] iterations make no call of
    [LED_On_1], and iteration [15 * 255] makes it. *)
Theorem ramp_up_scenario :
  STEP = 1 /\ UPDATE_EVERY = 15
  /\ fst (main (15 * 255))
     = {| brightness := 255; direction := -1; counter := 0 |}
  /\ occurrences Call_LED_On_1 (snd (main (15 * 255))) = 1%nat
  /\ forallb (fun s => (brightness s <? 255) && (direction s =? 1))
       (trajectory (15 * 255) initial_state) = true
  /\ occurrences Call_LED_On_1 (snd (main (15 * 255 - 1))) = 0%nat
  /\ occurrences Call_LED_On_1 (emitted (fst (main (15 * 255 - 1)))) = 1%nat.
Proof.
  repeat split; vm_compute; reflexivity.
Qed.

(** ** The boundary policy *)

Lemma pwm_period_no_LED1 b : filter is_LED1 (pwm_period b) = [].
Proof.
  unfold pwm_period.
  destruct (on_time b >? 0); destruct (off_time b >? 0); reflexivity.
Qed.

Lemma update_brightness_only_LED1 s :
  filter is_LED1 (snd (update_brightness s)) = snd (update_brightness s).
Proof.
  unfold update_brightness.
  destruct (stepped_brightness s >=? 255); [reflexivity|].
  destruct (stepped_brightness s <=? 0); reflexivity.
Qed.

(** The LED1 calls of an iteration are those of its brightness update, if
    it has one. *)
Lemma emitted_LED1 s :
  filter is_LED1 (emitted s)
  = if updates s then snd (update_brightness s) else [].
Proof.
  unfold emitted, main_loop_body.
  destruct (updates s).
  - destruct (update_brightness s) as [s' t'] eqn:Hu. cbn [snd].
    rewrite filter_app, pwm_period_no_LED1. cbn [app].
    pose proof (update_brightness_only_LED1 s) as Hf.
    rewrite Hu in Hf. exact Hf.
  - cbn [snd]. apply pwm_period_no_LED1.
Qed.

(** On the ramp the stepped brightness is just [brightness + direction]. *)
Lemma stepped_brightness_ramp s :
  ramp_invariant s -> stepped_brightness s = brightness s + direction s.
Proof.
  unfold ramp_invariant, stepped_brightness, STEP.
  intros (_ & [(Hd & Hb) | (Hd & Hb)]); rewrite Hd; fits; reflexivity.
Qed.

Lemma updates_ramp s :
  ramp_invariant s -> updates s = (counter s =? 14).
Proof.
  unfold ramp_invariant, updates, UPDATE_EVERY. intros (Hc & _). fits.
  destruct (Z.geb_spec (counter s + 1) 15); destruct (Z.eqb_spec (counter s) 14);
    (reflexivity || lia).
Qed.

Lemma emitted_LED1_ramp s :
  ramp_invariant s ->
  filter is_LED1 (emitted s)
  = if counter s =? 14 then
      if brightness s + direction s >=? 255 then [Call_LED_On_1]
      else if brightness s + direction s <=? 0 then [Call_LED_Off_1]
      else []
    else [].
Proof.
  intros Hinv.
  rewrite emitted_LED1, updates_ramp by exact Hinv.
  unfold update_brightness. rewrite stepped_brightness_ramp by exact Hinv.
  destruct (counter s =? 14); [|reflexivity].
  destruct (brightness s + direction s >=? 255); [reflexivity|].
  destruct (brightness s + direction s <=? 0); reflexivity.
Qed.

Lemma In_LED1 e t : is_LED1 e = true -> (In e t <-> In e (filter is_LED1 t)).
Proof.
  intros He. rewrite filter_In. tauto.
Qed.

(** C6: in a brightness update, a stepped brightness of 255 or more is
    clamped to 255, the direction becomes -1 and [LED_On_1] is called; a
    stepped brightness of 0 or less is clamped to 0, the direction becomes
    +1 and [LED_Off_1] is called; in between nothing is clamped, the
    direction stays and LED1 is left alone.  An iteration without update
    calls neither.  In the states the loop reaches, [LED_On_1] is called
    exactly in the iteration that brings the brightness up to 255 and
    [LED_Off_1] exactly in the iteration that brings it down to 0, and no
    iteration calls the two more than once in all. *)
Theorem boundary_policy s :
  (255 <= stepped_brightness s ->
   update_brightness s
   = ({| brightness := 255; direction := -1; counter := 0 |},
      [Call_LED_On_1]))
  /\ (stepped_brightness s <= 0 ->
      update_brightness s
      = ({| brightness := 0; direction := 1; counter := 0 |},
         [Call_LED_Off_1]))
  /\ (0 < stepped_brightness s < 255 ->
      update_brightness s
      = ({| brightness := stepped_brightness s; direction := direction s;
            counter := 0 |}, []))
  /\ (updates s = true -> main_loop_body s
      = (fst (update_brightness s),
         pwm_period (brightness s) ++ snd (update_brightness s)))
  /\ (updates s = false -> filter is_LED1 (emitted s) = [])
  /\ (reachable s ->
      (In Call_LED_On_1 (emitted s)
       <-> brightness (next s) = 255 /\ brightness s < 255)
      /\ (In Call_LED_Off_1 (emitted s)
          <-> brightness (next s) = 0 /\ 0 < brightness s)
      /\ (length (filter is_LED1 (emitted s)) <= 1)%nat).
Proof.
  split; [|split; [|split; [|split; [|split]]]].
  - intros H. unfold update_brightness.
    destruct (Z.geb_spec (stepped_brightness s) 255); [reflexivity | lia].
  - intros H. unfold update_brightness.
    destruct (Z.geb_spec (stepped_brightness s) 255); [lia|].
    destruct (Z.leb_spec (stepped_brightness s) 0); [reflexivity | lia].
  - intros H. unfold update_brightness.
    destruct (Z.geb_spec (stepped_brightness s) 255); [lia|].
    destruct (Z.leb_spec (stepped_brightness s) 0); [lia | reflexivity].
  - intros Hu. unfold main_loop_body. rewrite Hu.
    destruct (update_brightness s); reflexivity.
  - intros Hu. rewrite emitted_LED1, Hu. reflexivity.
  - intros Hr. pose proof (reachable_ramp_invariant s Hr) as Hinv.
    pose proof (next_cases s Hinv) as Hn.
    rewrite (In_LED1 Call_LED_On_1), (In_LED1 Call_LED_Off_1) by reflexivity.
    rewrite (emitted_LED1_ramp s Hinv).
    destruct Hinv as (Hc & Hd).
    destruct Hn as [(H1 & ->) | [(H1 & H2 & H3 & ->) | [(H1 & H2 & H3 & ->)
                  | [(H1 & H2 & H3 & ->) | (H1 & H2 & H3 & ->)]]]];
      cbn [brightness direction counter];
      destruct (Z.eqb_spec (counter s) 14); try lia;
      destruct (Z.geb_spec (brightness s + direction s) 255); try lia;
      destruct (Z.leb_spec (brightness s + direction s) 0); try lia;
      cbn [In length filter is_LED1];
      (split; [|split]); try lia;
      split; try (intros [He | []]; try discriminate He; lia);
      try (intros []; lia);
      try (intros _; left; reflexivity);
      intros; lia.
Qed.

Lemma boundary_policy_witness :
  255 <= stepped_brightness {| brightness := 254; direction := 1; counter := 14 |}
  /\ update_brightness {| brightness := 254; direction := 1; counter := 14 |}
     = ({| brightness := 255; direction := -1; counter := 0 |}, [Call_LED_On_1])
  /\ stepped_brightness {| brightness := 1; direction := -1; counter := 14 |} <= 0
  /\ update_brightness {| brightness := 1; direction := -1; counter := 14 |}
     = ({| brightness := 0; direction := 1; counter := 0 |}, [Call_LED_Off_1])
  /\ reachable initial_state
  /\ (length (filter is_LED1 (emitted initial_state)) <= 1)%nat.
Proof.
  assert (255 <= stepped_brightness
                   {| brightness := 254; direction := 1; counter := 14 |}) as Hup
    by (vm_compute; discriminate).
  assert (stepped_brightness
            {| brightness := 1; direction := -1; counter := 14 |} <= 0) as Hdown
    by (vm_compute; discriminate).
  split; [exact Hup|].
  split; [apply (boundary_policy _), Hup|].
  split; [exact Hdown|].
  split; [apply (boundary_policy _), Hdown|].
  split; [apply reachable_initial|].
  apply (boundary_policy initial_state), reachable_initial.
Defined.

(** ** The PWM period on the pin *)

Lemma PB2_LED_On_2 p : PB2 (LED_On_2 p) = true.
Proof.
  unfold PB2, LED_On_2, on_GPIOB, set_ODR, uint32. cbn [ODR GPIOB].
  rewrite Z.mod_pow2_bits_low by lia.
  rewrite Z.lor_spec. apply orb_true_r.
Qed.

Lemma PB2_LED_Off_2 p : PB2 (LED_Off_2 p) = false.
Proof.
  unfold PB2, LED_Off_2, on_GPIOB, set_ODR, uint32. cbn [ODR GPIOB].
  rewrite Z.mod_pow2_bits_low by lia.
  rewrite Z.land_spec. apply andb_false_r.
Qed.

(** The effect of a word written to [BSRR] on an output bit. *)
Lemma testbit_write_BSRR v g n :
  0 <= n < 16 ->
  Z.testbit (ODR (write_BSRR v g)) n
  = (Z.testbit (ODR g) n && negb (Z.testbit v (n + 16))) || Z.testbit v n.
Proof.
  intros Hn. unfold write_BSRR, set_ODR, uint32. cbn [ODR].
  rewrite Z.mod_pow2_bits_low by lia.
  rewrite Z.lor_spec, !Z.land_spec, Z.lnot_spec, Z.shiftr_spec by lia.
  change 65535 with (Z.ones 16).
  rewrite Z.ones_spec_low by lia.
  rewrite andb_true_r. reflexivity.
Qed.

Lemma PB2_LED_On_1 p : PB2 (LED_On_1 p) = PB2 p.
Proof.
  unfold PB2, LED_On_1, on_GPIOB. cbn [GPIOB].
  rewrite testbit_write_BSRR by lia.
  replace (Z.testbit (uint32 (Z.shiftl 1 (8 + 16))) (2 + 16)) with false
    by reflexivity.
  replace (Z.testbit (uint32 (Z.shiftl 1 (8 + 16))) 2) with false
    by reflexivity.
  cbn [negb]. rewrite andb_true_r, orb_false_r. reflexivity.
Qed.

Lemma PB2_LED_Off_1 p : PB2 (LED_Off_1 p) = PB2 p.
Proof.
  unfold PB2, LED_Off_1, on_GPIOB. cbn [GPIOB].
  rewrite testbit_write_BSRR by lia.
  replace (Z.testbit (uint32 (Z.shiftl 1 8)) (2 + 16)) with false
    by reflexivity.
  replace (Z.testbit (uint32 (Z.shiftl 1 8)) 2) with false by reflexivity.
  cbn [negb]. rewrite andb_true_r, orb_false_r. reflexivity.
Qed.

(** LED1 is lit by a low level on PB8. *)
Lemma PB8_LED_On_1 p : PB8 (LED_On_1 p) = false.
Proof.
  unfold PB8, LED_On_1, on_GPIOB. cbn [GPIOB].
  rewrite testbit_write_BSRR by lia.
  replace (Z.testbit (uint32 (Z.shiftl 1 (8 + 16))) (8 + 16)) with true
    by reflexivity.
  replace (Z.testbit (uint32 (Z.shiftl 1 (8 + 16))) 8) with false
    by reflexivity.
  cbn [negb]. rewrite andb_false_r. reflexivity.
Qed.

Lemma PB8_LED_Off_1 p : PB8 (LED_Off_1 p) = true.
Proof.
  unfold PB8, LED_Off_1, on_GPIOB. cbn [GPIOB].
  rewrite testbit_write_BSRR by lia.
  replace (Z.testbit (uint32 (Z.shiftl 1 8)) 8) with true by reflexivity.
  apply orb_true_r.
Qed.

(** [LED_Init] leaves both LEDs dark: PB2 low, PB8 high. *)
Lemma LED_Init_dark p : PB2 (LED_Init p) = false /\ PB8 (LED_Init p) = true.
Proof.
  unfold PB2, PB8, LED_Init. cbv zeta. cbn [GPIOB].
  rewrite !testbit_write_BSRR by lia. cbn [ODR].
  replace (Z.testbit (uint32 (Z.shiftl 1 8)) 8) with true by reflexivity.
  replace (Z.testbit (uint32 (Z.shiftl 1 8)) 2) with false by reflexivity.
  unfold uint32 at 1.
  rewrite Z.mod_pow2_bits_low by lia.
  rewrite Z.land_spec.
  replace (Z.testbit (Z.lnot (Z.shiftl 1 2)) 2) with false by reflexivity.
  rewrite andb_false_r, orb_true_r. split; reflexivity.
Qed.

Lemma exec_trace_app t1 t2 w :
  exec_trace (t1 ++ t2) w = exec_trace t2 (exec_trace t1 w).
Proof. unfold exec_trace. apply fold_left_app. Qed.

(** The LED1 calls leave the PWM pin and the clock alone. *)
Lemma exec_trace_LED1_only t w :
  filter is_LED1 t = t ->
  high_us (exec_trace t w) = high_us w
  /\ low_us (exec_trace t w) = low_us w
  /\ PB2 (port (exec_trace t w)) = PB2 (port w).
Proof.
  revert w. induction t as [|e t IH]; intros w Hf.
  - repeat split.
  - cbn [filter] in Hf.
    destruct (is_LED1 e) eqn:He.
    + injection Hf as Hf.
      destruct (IH (exec_event w e) Hf) as (Hh & Hl & Hp).
      change (exec_trace (e :: t) w) with (exec_trace t (exec_event w e)).
      rewrite Hh, Hl, Hp.
      destruct e; try discriminate He; cbn [exec_event on_port port high_us low_us];
        rewrite ?PB2_LED_On_1, ?PB2_LED_Off_1; repeat split.
    + exfalso.
      assert (length (filter is_LED1 t) <= length t)%nat as Hlen
        by apply filter_length_le.
      rewrite Hf in Hlen. cbn [length] in Hlen. lia.
Qed.

(** The waveform of one PWM period, whatever the port held before. *)
Lemma exec_pwm_period b p :
  0 <= b <= 255 ->
  high_us (exec_trace (pwm_period b) (start_wave p)) = on_time b
  /\ low_us (exec_trace (pwm_period b) (start_wave p)) = off_time b.
Proof.
  intros Hb.
  pose proof (on_time_range b Hb) as Hon.
  pose proof (off_time_exact b Hb) as Hoff.
  unfold PWM_CYCLE in *. unfold pwm_period.
  rewrite (uint32_small (on_time b)) by (unfold is_uint32; lia).
  rewrite (uint32_small (off_time b)) by (unfold is_uint32; lia).
  destruct (Z.gtb_spec (on_time b) 0); destruct (Z.gtb_spec (off_time b) 0);
    unfold exec_trace, start_wave;
    cbn [app fold_left exec_event on_port port];
    rewrite ?PB2_LED_Off_2, ?PB2_LED_On_2;
    cbn [high_us low_us port on_port];
    rewrite ?PB2_LED_Off_2, ?PB2_LED_On_2;
    cbn [high_us low_us port on_port]; lia.
Qed.

Lemma In_pwm_period e b :
  In e (pwm_period b) ->
  (e = Call_LED_On_2 /\ 0 < on_time b)
  \/ (e = Call_Delay_us (uint32 (on_time b)) /\ 0 < on_time b)
  \/ (e = Call_LED_Off_2 /\ 0 < off_time b)
  \/ (e = Call_Delay_us (uint32 (off_time b)) /\ 0 < off_time b).
Proof.
  unfold pwm_period. rewrite in_app_iff.
  destruct (Z.gtb_spec (on_time b) 0); destruct (Z.gtb_spec (off_time b) 0);
    cbn [In]; intuition (subst; auto).
Qed.

Lemma In_emitted e s :
  In e (emitted s) -> In e (pwm_period (brightness s)) \/ is_LED1 e = true.
Proof.
  unfold emitted, main_loop_body, update_brightness.
  destruct (updates s); cbn [snd]; [|tauto].
  destruct (stepped_brightness s >=? 255);
    [|destruct (stepped_brightness s <=? 0)];
    cbn [snd]; rewrite in_app_iff; cbn [In];
    intuition (subst; auto).
Qed.

Lemma emitted_split s :
  exists t',
    emitted s = pwm_period (brightness s) ++ t' /\ filter is_LED1 t' = t'.
Proof.
  unfold emitted, main_loop_body.
  destruct (updates s).
  - exists (snd (update_brightness s)). split.
    + destruct (update_brightness s); reflexivity.
    + apply update_brightness_only_LED1.
  - exists []. split; [cbn [snd]; rewrite app_nil_r|]; reflexivity.
Qed.

(** C8: in every iteration the loop runs, the requested delays during
    which PB2 is high add up to [on_time] and those during which it is low
    add up to [off_time]; every [Delay_us] call of the iteration is one of
    these two phases and has a duration above 0; a phase whose duration is
    0 is left out altogether, wrapper call and delay: no [Delay_us(0)] is
    made. *)
Theorem pwm_period_skips_zero_phases s p :
  reachable s ->
  high_us (exec_trace (emitted s) (start_wave p)) = on_time (brightness s)
  /\ low_us (exec_trace (emitted s) (start_wave p)) = off_time (brightness s)
  /\ (forall d, In (Call_Delay_us d) (emitted s) ->
        0 < d /\ (d = on_time (brightness s) \/ d = off_time (brightness s)))
  /\ (on_time (brightness s) = 0 -> ~ In Call_LED_On_2 (emitted s))
  /\ (off_time (brightness s) = 0 -> ~ In Call_LED_Off_2 (emitted s))
  /\ ~ In (Call_Delay_us 0) (emitted s).
Proof.
  intros Hr.
  destruct (reachable_ramp_invariant s Hr) as (_ & Hd).
  assert (0 <= brightness s <= 255) as Hb by lia.
  pose proof (on_time_range _ Hb) as Hon.
  pose proof (off_time_exact _ Hb) as Hoff.
  unfold PWM_CYCLE in *.
  assert (forall d, In (Call_Delay_us d) (emitted s) ->
            0 < d /\ (d = on_time (brightness s) \/ d = off_time (brightness s)))
    as Hdelays.
  { intros d Hin.
    destruct (In_emitted _ _ Hin) as [Hp | Hl]; [|discriminate Hl].
    destruct (In_pwm_period _ _ Hp) as [(He & _) | [(He & Hpos)
                                      | [(He & _) | (He & Hpos)]]];
      try discriminate He; injection He as ->.
    - rewrite uint32_small by (unfold is_uint32; lia). auto.
    - rewrite uint32_small by (unfold is_uint32; lia). auto. }
  destruct (emitted_split s) as (t' & Hsplit & Hled).
  destruct (exec_pwm_period (brightness s) p Hb) as (Hh & Hl).
  destruct (exec_trace_LED1_only t'
              (exec_trace (pwm_period (brightness s)) (start_wave p)) Hled)
    as (Hh' & Hl' & _).
  split; [|split; [|split; [|split; [|split]]]].
  - rewrite Hsplit, exec_trace_app, Hh'. exact Hh.
  - rewrite Hsplit, exec_trace_app, Hl'. exact Hl.
  - exact Hdelays.
  - intros H0 Hin.
    destruct (In_emitted _ _ Hin) as [Hp | Hl1]; [|discriminate Hl1].
    destruct (In_pwm_period _ _ Hp) as [(_ & Hpos) | [(He & _)
                                      | [(He & _) | (He & _)]]];
      try discriminate He. lia.
  - intros H0 Hin.
    destruct (In_emitted _ _ Hin) as [Hp | Hl1]; [|discriminate Hl1].
    destruct (In_pwm_period _ _ Hp) as [(He & _) | [(He & _)
                                      | [(_ & Hpos) | (He & _)]]];
      try discriminate He. lia.
  - intros Hin. destruct (Hdelays 0 Hin) as (Hpos & _). lia.
Qed.

Lemma pwm_period_skips_zero_phases_witness :
  reachable initial_state
  /\ emitted initial_state = [Call_LED_Off_2; Call_Delay_us 500]
  /\ high_us (exec_trace (emitted initial_state) (start_wave lit_ports)) = 0
  /\ low_us (exec_trace (emitted initial_state) (start_wave lit_ports)) = 500
  /\ ~ In Call_LED_On_2 (emitted initial_state).
Proof.
  destruct (pwm_period_skips_zero_phases initial_state lit_ports
              reachable_initial)
    as (Hh & Hl & _ & Hon & _).
  split; [apply reachable_initial|].
  split; [reflexivity|].
  split; [exact Hh|].
  split; [exact Hl|].
  apply Hon. reflexivity.
Defined.

(* ================================================================= *)
(** * Part III: further properties of the code *)
(* ================================================================= *)

(** ** [Delay_us]: the load *)

Lemma ticks_per_us_range clk :
  is_uint32 clk -> 0 <= clk / 1000000 <= 4294.
Proof.
  unfold is_uint32. intros Hc. split.
  - apply Z.div_pos; lia.
  - enough (clk / 1000000 < 4295) by lia.
    apply Z.div_lt_upper_bound; lia.
Qed.

(** X1: as long as the tick product stays below 2^32, [Delay_us] loads the
    exact product precisely for the requests up to
    [0xFFFFFF / (SystemCoreClock / 1000000)] microseconds, the maximum the
    file header of Delay.c gives, and loads the counter maximum for the
    requests beyond it. *)
Theorem Delay_us_load_exact_up_to_maximum clk xus :
  1000000 <= clk -> 0 <= xus ->
  clk / 1000000 * xus < 2 ^ 32 ->
  (Delay_us_load clk xus = clk / 1000000 * xus
   <-> xus <= COUNTER_MAX / (clk / 1000000))
  /\ (COUNTER_MAX / (clk / 1000000) < xus ->
      Delay_us_load clk xus = COUNTER_MAX).
Proof.
  intros Hc Hx Hp.
  assert (1 <= clk / 1000000) as Hq by (apply Z.div_le_lower_bound; lia).
  set (q := clk / 1000000) in *.
  assert (xus <= COUNTER_MAX / q <-> q * xus <= COUNTER_MAX) as Hdiv.
  { split; intros H.
    - pose proof (Z.mul_div_le COUNTER_MAX q ltac:(lia)). nia.
    - apply Z.div_le_lower_bound; lia. }
  split; [split|].
  - intros He. apply Hdiv.
    pose proof (Delay_us_load_range clk xus) as Hr. fold q in He. lia.
  - intros Hle. apply Delay_us_load_exact. fold q. apply Hdiv in Hle. lia.
  - intros Hgt. apply Delay_us_load_clamped. fold q.
    split; [|exact Hp].
    destruct (Z.le_gt_cases (q * xus) COUNTER_MAX) as [Hle|]; [|assumption].
    apply Hdiv in Hle. lia.
Qed.

Lemma Delay_us_load_exact_up_to_maximum_witness :
  1000000 <= 168000000 /\ 0 <= 99864
  /\ COUNTER_MAX / (168000000 / 1000000) = 99864
  /\ Delay_us_load 168000000 99864 = 168 * 99864
  /\ Delay_us_load 168000000 99865 = COUNTER_MAX.
Proof.
  assert (1000000 <= 168000000) as Hc by lia.
  assert (168000000 / 1000000 * 99864 < 2 ^ 32) as Hp1 by (vm_compute; reflexivity).
  assert (168000000 / 1000000 * 99865 < 2 ^ 32) as Hp2 by (vm_compute; reflexivity).
  destruct (Delay_us_load_exact_up_to_maximum 168000000 99864 Hc
              ltac:(lia) Hp1) as ((_ & Hex) & _).
  destruct (Delay_us_load_exact_up_to_maximum 168000000 99865 Hc
              ltac:(lia) Hp2) as (_ & Hcl).
  split; [exact Hc|]. split; [lia|]. split; [reflexivity|].
  split.
  - apply Hex. vm_compute. discriminate.
  - apply Hcl. vm_compute. reflexivity.
Defined.

(** X2: in the parameter range Delay.h documents, 1 to 1000000
    microseconds, no clock frequency a [uint32_t] can hold makes the tick
    product wrap: the load is the product or, above it, the counter
    maximum, and it is not 0 once the clock is 1 MHz or more. *)
Theorem Delay_us_load_in_header_range clk xus :
  is_uint32 clk -> 1 <= xus <= 1000000 ->
  clk / 1000000 * xus < 2 ^ 32
  /\ Delay_us_load clk xus = Z.min (clk / 1000000 * xus) COUNTER_MAX
  /\ (1000000 <= clk -> 1 <= Delay_us_load clk xus).
Proof.
  intros Hc Hx.
  pose proof (ticks_per_us_range clk Hc) as Hq.
  assert (0 <= clk / 1000000 * xus < 2 ^ 32) as Hp by nia.
  assert (Delay_us_load clk xus = Z.min (clk / 1000000 * xus) COUNTER_MAX) as Hl.
  { destruct (Z.le_gt_cases (clk / 1000000 * xus) COUNTER_MAX) as [Hle | Hgt].
    - rewrite Delay_us_load_exact by lia. lia.
    - rewrite Delay_us_load_clamped by lia. lia. }
  split; [lia|]. split; [exact Hl|].
  intros Hmhz. rewrite Hl.
  assert (1 <= clk / 1000000) by (apply Z.div_le_lower_bound; lia).
  unfold COUNTER_MAX. nia.
Qed.

Lemma Delay_us_load_in_header_range_witness :
  is_uint32 4294967295 /\ 1 <= 1000000 <= 1000000
  /\ Delay_us_load 4294967295 1000000 = COUNTER_MAX
  /\ Delay_us_load 4294967295 1 = 4294.
Proof.
  assert (is_uint32 4294967295) as Hc by (unfold is_uint32; lia).
  destruct (Delay_us_load_in_header_range 4294967295 1000000 Hc ltac:(lia))
    as (_ & Hmax & _).
  destruct (Delay_us_load_in_header_range 4294967295 1 Hc ltac:(lia))
    as (_ & Hone & _).
  split; [exact Hc|]. split; [lia|]. split; [exact Hmax | exact Hone].
Defined.

(** X3: below the wrap, a longer request never gets a smaller load:
    [Delay_us_load] is monotone in the request as long as the tick product
    of the longer request stays below 2^32. *)
Theorem Delay_us_load_monotone clk xus1 xus2 :
  0 <= clk -> 0 <= xus1 <= xus2 ->
  clk / 1000000 * xus2 < 2 ^ 32 ->
  Delay_us_load clk xus1 <= Delay_us_load clk xus2.
Proof.
  intros Hc Hx Hp.
  assert (0 <= clk / 1000000) as Hq by (apply Z.div_pos; lia).
  assert (0 <= clk / 1000000 * xus1 <= clk / 1000000 * xus2) as Hle by nia.
  destruct (Z.le_gt_cases (clk / 1000000 * xus2) COUNTER_MAX) as [H2 | H2].
  - rewrite !Delay_us_load_exact by lia. lia.
  - rewrite (Delay_us_load_clamped clk xus2) by lia.
    apply Delay_us_load_range.
Qed.

Lemma Delay_us_load_monotone_witness :
  0 <= 168000000 /\ 0 <= 250 <= 500
  /\ Delay_us_load 168000000 250 <= Delay_us_load 168000000 500.
Proof.
  split; [lia|]. split; [lia|].
  apply Delay_us_load_monotone; [lia | lia | vm_compute; reflexivity].
Defined.

(** X4: only the whole megahertz of [SystemCoreClock] count: the quotient
    by 1000000 drops the rest, so a clock and the same clock rounded down
    to a multiple of 1 MHz give the same load.  Below 1 MHz the quotient is
    0, every request loads 0 and no call of [Delay_us] returns. *)
Theorem Delay_us_whole_megahertz clk xus :
  0 <= clk ->
  Delay_us_load clk xus = Delay_us_load (clk - clk mod 1000000) xus
  /\ (clk < 1000000 ->
      Delay_us_load clk xus = 0
      /\ forall k fuel s, Delay_us SysTick clk k fuel xus s = None).
Proof.
  intros Hc.
  assert ((clk - clk mod 1000000) / 1000000 = clk / 1000000) as Hq.
  { rewrite (Z.div_mod clk 1000000) at 1 by lia.
    replace (1000000 * (clk / 1000000) + clk mod 1000000 - clk mod 1000000)
      with (clk / 1000000 * 1000000) by lia.
    apply Z.div_mul. lia. }
  split.
  - unfold Delay_us_load, Delay_us_ticks. rewrite Hq. reflexivity.
  - intros Hlt.
    assert (Delay_us_load clk xus = 0) as H0.
    { unfold Delay_us_load, Delay_us_ticks, uint32.
      rewrite Z.div_small by lia. reflexivity. }
    split; [exact H0|].
    intros k fuel s. apply Delay_us_load_0_hangs, H0.
Qed.

Lemma Delay_us_whole_megahertz_witness :
  0 <= 999999
  /\ Delay_us_load 999999 500 = 0
  /\ Delay_us SysTick 999999 1 100 500 (armed 0) = None
  /\ Delay_us_load 168999999 500 = Delay_us_load 168000000 500.
Proof.
  destruct (Delay_us_whole_megahertz 999999 500 ltac:(lia)) as (_ & Hsub).
  destruct (Hsub ltac:(lia)) as (H0 & Hhang).
  destruct (Delay_us_whole_megahertz 168999999 500 ltac:(lia)) as (Hw & _).
  split; [lia|]. split; [exact H0|]. split; [apply Hhang | exact Hw].
Defined.

(** ** [Delay_us]: the timer around the wait *)

Lemma clock_running s :
  CTRL s = 0x00000005 \/ CTRL s = 0x00010005 ->
  (CTRL (clock s) = 0x00000005 \/ CTRL (clock s) = 0x00010005)
  /\ LOAD (clock s) = LOAD s.
Proof.
  intros [H | H]; unfold clock, ENABLE; rewrite H.
  - change (negb (Z.land 5 SysTick_CTRL_ENABLE =? 0)) with true. cbv iota.
    destruct (VAL s =? 0); [cbn; auto|].
    destruct (VAL s =? 1); cbn; auto.
  - change (negb (Z.land 65541 SysTick_CTRL_ENABLE =? 0)) with true. cbv iota.
    destruct (VAL s =? 0); [cbn; auto|].
    destruct (VAL s =? 1); cbn; auto.
Qed.

Lemma clocks_running n s :
  CTRL s = 0x00000005 \/ CTRL s = 0x00010005 ->
  (CTRL (clocks n s) = 0x00000005 \/ CTRL (clocks n s) = 0x00010005)
  /\ LOAD (clocks n s) = LOAD s.
Proof.
  revert s. induction n as [|n IH]; intros s H; cbn [clocks]; [auto|].
  destruct (clock_running s H) as (Hc & Hl).
  destruct (IH (clock s) Hc) as (Hc' & Hl').
  split; [exact Hc' | congruence].
Qed.

(** A wait that ends leaves the counter enabled, COUNTFLAG consumed by the
    last load of [CTRL], and the reload value as it was. *)
Lemma wait_COUNTFLAG_result k fuel reads s n s' :
  CTRL s = 0x00000005 \/ CTRL s = 0x00010005 ->
  wait_COUNTFLAG SysTick k fuel reads s = Some (n, s') ->
  CTRL s' = 0x00000005 /\ LOAD s' = LOAD s.
Proof.
  revert reads s. induction fuel as [|fuel IH]; intros reads s Hs Hw.
  - discriminate.
  - rewrite wait_COUNTFLAG_step in Hw.
    destruct (clocks_running k s Hs) as (Hc & Hl).
    assert (CTRL (snd (read_CTRL (clocks k s))) = 0x00000005) as Hread.
    { cbn [read_CTRL snd CTRL]. destruct Hc as [-> | ->]; reflexivity. }
    destruct (Z.land (CTRL (clocks k s)) 65536 =? 0).
    + destruct (IH _ _ (or_introl Hread) Hw) as (H1 & H2).
      split; [exact H1|]. rewrite H2. cbn [read_CTRL snd LOAD]. exact Hl.
    + injection Hw as _ <-. split; [exact Hread|].
      cbn [read_CTRL snd LOAD]. exact Hl.
Qed.

Lemma clocks_disabled n s : ENABLE s = false -> clocks n s = s.
Proof.
  intros H. induction n as [|n IH]; cbn [clocks]; [reflexivity|].
  unfold clock at 1. rewrite H. exact IH.
Qed.

Lemma Delay_us_leaves_CTRL_and_LOAD clk k fuel xus s reads s' :
  Delay_us SysTick clk k fuel xus s = Some (reads, s') ->
  CTRL s' = 0x00000004 /\ LOAD s' = Delay_us_load clk xus.
Proof.
  unfold Delay_us. cbv zeta.
  cbn [SysTick store_LOAD store_VAL store_CTRL].
  rewrite Delay_us_arms.
  destruct (wait_COUNTFLAG SysTick k fuel 0 _) as [[n s0]|] eqn:Hw;
    [|discriminate].
  intros H. injection H as _ <-.
  assert (CTRL (armed (Delay_us_load clk xus)) = 0x00000005
          \/ CTRL (armed (Delay_us_load clk xus)) = 0x00010005) as Harmed
    by (left; reflexivity).
  destruct (wait_COUNTFLAG_result _ _ _ _ _ _ Harmed Hw) as (Hc & Hl).
  split; [|exact Hl].
  unfold write_CTRL. cbn [CTRL]. rewrite Hc. reflexivity.
Qed.

(** The last store of [Delay_us] disables the counter and keeps HCLK
    selected, whatever [CTRL] held, COUNTFLAG included. *)
Lemma write_CTRL_4_disables s :
  ENABLE (write_CTRL 0x00000004 s) = false
  /\ Z.land (CTRL (write_CTRL 0x00000004 s)) SysTick_CTRL_WRITABLE
     = 0x00000004.
Proof.
  unfold ENABLE, write_CTRL. cbn [CTRL].
  change (Z.land 4 SysTick_CTRL_WRITABLE) with 4.
  rewrite !Z.land_lor_distr_l, <- !Z.land_assoc.
  change (Z.land SysTick_CTRL_COUNTFLAG SysTick_CTRL_ENABLE) with 0.
  change (Z.land SysTick_CTRL_COUNTFLAG SysTick_CTRL_WRITABLE) with 0.
  rewrite !Z.land_0_r. split; reflexivity.
Qed.

(** X5: [Delay_us] shuts the timer down behind itself.  When it returns,
    the enable bit of [CTRL] is clear and the control bits read 4 (HCLK
    still selected), [LOAD] holds the load of the request, and the counter
    stands still from then on. *)
Theorem Delay_us_stops_timer clk k fuel xus s reads s' :
  Delay_us SysTick clk k fuel xus s = Some (reads, s') ->
  ENABLE s' = false
  /\ Z.land (CTRL s') SysTick_CTRL_WRITABLE = 0x00000004
  /\ LOAD s' = Delay_us_load clk xus
  /\ forall n, clocks n s' = s'.
Proof.
  intros Hd.
  destruct (Delay_us_leaves_CTRL_and_LOAD _ _ _ _ _ _ _ Hd) as (_ & Hl).
  revert Hd. unfold Delay_us. cbv zeta.
  cbn [SysTick store_LOAD store_VAL store_CTRL].
  destruct (wait_COUNTFLAG SysTick k fuel 0 _) as [[n s0]|]; [|discriminate].
  intros H. injection H as _ <-.
  destruct (write_CTRL_4_disables s0) as (He & H4).
  split; [exact He|]. split; [exact H4|]. split; [exact Hl|].
  intros m. apply clocks_disabled, He.
Qed.

Lemma Delay_us_stops_timer_witness :
  Delay_us SysTick 1000000 1 200 100 (armed 7)
  = Some (101%nat, {| CTRL := 4; LOAD := 100; VAL := 0 |})
  /\ ENABLE {| CTRL := 4; LOAD := 100; VAL := 0 |} = false
  /\ clocks 5 {| CTRL := 4; LOAD := 100; VAL := 0 |}
     = {| CTRL := 4; LOAD := 100; VAL := 0 |}.
Proof.
  assert (Delay_us SysTick 1000000 1 200 100 (armed 7)
          = Some (101%nat, {| CTRL := 4; LOAD := 100; VAL := 0 |})) as Hr
    by (vm_compute; reflexivity).
  destruct (Delay_us_stops_timer 1000000 1 200 100 (armed 7) _ _ Hr)
    as (He & _ & _ & Hstill).
  split; [exact Hr|]. split; [exact He | apply Hstill].
Defined.

(** With a load of at least 1 any fuel above the load sees the wait end. *)
Lemma Delay_us_returns_with_fuel clk k fuel xus s :
  (1 <= k)%nat -> Delay_us_load clk xus <> 0 ->
  (Z.to_nat (Delay_us_load clk xus) < fuel)%nat ->
  exists reads s', Delay_us SysTick clk k fuel xus s = Some (reads, s').
Proof.
  intros Hk Hl Hf.
  pose proof (Delay_us_load_range clk xus) as Hr.
  set (l := Delay_us_load clk xus) in *.
  destruct (wait_COUNTFLAG_armed l ltac:(lia) k Hk fuel 0%nat 0%nat)
    as (n & s' & Hw & _).
  { cbn [Nat.add]. nia. }
  exists n, (write_CTRL 0x00000004 s').
  unfold Delay_us. cbv zeta.
  cbn [SysTick store_LOAD store_VAL store_CTRL].
  rewrite Delay_us_arms. fold l.
  cbn [clocks] in Hw. rewrite Hw. reflexivity.
Qed.

(** X6: how long [Delay_us] waits.  With [k >= 1] counter clocks between
    two loads of [CTRL], a call that returns has loaded [CTRL] as many times
    as it takes for more than [load] clocks to go by, and no more: the
    clocks spent exceed the load by at most [k].  With one clock per load
    the count is exactly [load + 1]. *)
Theorem Delay_us_wait_bounds clk k fuel xus s reads s' :
  (1 <= k)%nat ->
  Delay_us SysTick clk k fuel xus s = Some (reads, s') ->
  Delay_us_load clk xus < Z.of_nat (reads * k)
                        <= Delay_us_load clk xus + Z.of_nat k
  /\ (k = 1%nat -> Z.of_nat reads = Delay_us_load clk xus + 1).
Proof.
  intros Hk Hd.
  pose proof (Delay_us_load_range clk xus) as Hr.
  destruct (Z.eq_dec (Delay_us_load clk xus) 0) as [H0 | Hl].
  - rewrite (Delay_us_load_0_hangs _ _ _ _ _ H0) in Hd. discriminate.
  - destruct (Delay_us_returns clk k xus s Hk Hl)
      as (fuel0 & reads0 & s0 & Hd0 & Hlo & Hhi).
    apply (Delay_us_fuel_mono _ _ _ (Nat.max fuel fuel0)) in Hd; [|lia].
    apply (Delay_us_fuel_mono _ _ _ (Nat.max fuel fuel0)) in Hd0; [|lia].
    rewrite Hd in Hd0. injection Hd0 as -> _.
    assert (1 <= reads0)%nat as Hpos by (destruct reads0; [cbn in Hhi|]; lia).
    assert (reads0 * k = (reads0 - 1) * k + k)%nat as Hsplit by nia.
    split; [split; [exact Hhi | rewrite Hsplit; lia]|].
    intros ->. lia.
Qed.

Lemma Delay_us_wait_bounds_witness :
  (1 <= 4)%nat
  /\ Delay_us SysTick 1000000 4 100 10 (armed 0)
     = Some (3%nat, {| CTRL := 4; LOAD := 10; VAL := 10 |})
  /\ Delay_us_load 1000000 10 < Z.of_nat (3 * 4)
                              <= Delay_us_load 1000000 10 + Z.of_nat 4.
Proof.
  assert (Delay_us SysTick 1000000 4 100 10 (armed 0)
          = Some (3%nat, {| CTRL := 4; LOAD := 10; VAL := 10 |})) as Hr
    by (vm_compute; reflexivity).
  destruct (Delay_us_wait_bounds 1000000 4 100 10 (armed 0) _ _
              ltac:(lia) Hr) as (Hb & _).
  split; [lia|]. split; [exact Hr | exact Hb].
Defined.

(** ** [Delay_ms] and [Delay_s] on the timer *)

Lemma invocations_total {M : Type} (P : M -> Prop) n (f : M -> option M) m :
  (forall x, exists y, f x = Some y /\ P y) ->
  exists m', invocations n f m = Some m' /\ ((1 <= n)%nat -> P m').
Proof.
  intros Hf. revert m. induction n as [|n IH]; intros m.
  - exists m. split; [reflexivity | lia].
  - cbn [invocations]. destruct (Hf m) as (y & -> & Hy).
    destruct (IH y) as (m' & Hm' & HP).
    exists m'. split; [exact Hm'|]. intros _.
    destruct n as [|n]; [|apply HP; lia].
    cbn [invocations] in Hm'. injection Hm' as <-. exact Hy.
Qed.

Lemma Delay_us_SysTick_returns clk k fuel xus s :
  (1 <= k)%nat -> Delay_us_load clk xus <> 0 ->
  (Z.to_nat (Delay_us_load clk xus) < fuel)%nat ->
  exists s', Delay_us_SysTick clk k fuel xus s = Some s'
             /\ (CTRL s' = 0x00000004 /\ LOAD s' = Delay_us_load clk xus).
Proof.
  intros Hk Hl Hf.
  destruct (Delay_us_returns_with_fuel clk k fuel xus s Hk Hl Hf)
    as (reads & s' & Hd).
  exists s'. unfold Delay_us_SysTick. rewrite Hd. split; [reflexivity|].
  destruct (Delay_us_leaves_CTRL_and_LOAD clk k fuel xus s reads s' Hd)
    as (H4 & HL). auto.
Qed.

Lemma Delay_us_load_1000 clk :
  is_uint32 clk -> 1000000 <= clk ->
  Delay_us_load clk 1000 = clk / 1000000 * 1000
  /\ 1000 <= Delay_us_load clk 1000.
Proof.
  intros Hc Hm. pose proof (ticks_per_us_range clk Hc) as Hq.
  assert (1 <= clk / 1000000) by (apply Z.div_le_lower_bound; lia).
  rewrite Delay_us_load_exact by (unfold COUNTER_MAX; lia). lia.
Qed.

(** X7: the millisecond and second delays on the Cortex-M4 timer.  With a
    core clock of 1 MHz or more and a counter that advances between two
    loads of [CTRL], [Delay_ms] and [Delay_s] return for every argument,
    and after a non-zero argument the timer is left stopped with the load
    of 1000 microseconds in [LOAD].  With a core clock below 1 MHz neither
    returns for any argument but 0: the first [Delay_us(1000)] never
    ends. *)
Theorem Delay_ms_Delay_s_on_SysTick clk k fuel x s :
  is_uint32 clk -> (1 <= k)%nat -> is_uint32 x ->
  (Z.to_nat x < fuel)%nat -> (1000 < fuel)%nat ->
  (Z.to_nat (Delay_us_load clk 1000) < fuel)%nat ->
  (1000000 <= clk ->
   exists s1 s2,
     Delay_ms (Delay_us_SysTick clk k fuel) fuel x s = Some s1
     /\ Delay_s (Delay_us_SysTick clk k fuel) fuel x s = Some s2
     /\ (1 <= x ->
         CTRL s1 = 0x00000004 /\ LOAD s1 = clk / 1000000 * 1000
         /\ CTRL s2 = 0x00000004 /\ LOAD s2 = clk / 1000000 * 1000))
  /\ (clk < 1000000 -> 1 <= x ->
      Delay_ms (Delay_us_SysTick clk k fuel) fuel x s = None
      /\ Delay_s (Delay_us_SysTick clk k fuel) fuel x s = None).
Proof.
  intros Hc Hk Hx Hfx Hf1000 Hfl.
  assert (is_uint32 1000) as H1000 by (unfold is_uint32; lia).
  assert (forall y,
            Delay_ms (Delay_us_SysTick clk k fuel) fuel 1000 y
            = invocations 1000 (Delay_us_SysTick clk k fuel 1000) y) as Hms.
  { intros y. unfold Delay_ms.
    apply while_postdec_invocations; [exact H1000 | lia]. }
  unfold Delay_ms, Delay_s.
  rewrite !while_postdec_invocations by assumption.
  split.
  - intros Hm. destruct (Delay_us_load_1000 clk Hc Hm) as (Hl & Hl').
    set (P := fun st => CTRL st = 0x00000004 /\ LOAD st = clk / 1000000 * 1000).
    assert (forall y, exists y',
               Delay_us_SysTick clk k fuel 1000 y = Some y' /\ P y') as Hus.
    { intros y.
      destruct (Delay_us_SysTick_returns clk k fuel 1000 y Hk ltac:(lia) Hfl)
        as (y' & Hy & H4 & HL).
      exists y'. split; [exact Hy|]. unfold P. rewrite <- Hl. auto. }
    assert (forall y, exists y',
               Delay_ms (Delay_us_SysTick clk k fuel) fuel 1000 y = Some y'
               /\ P y') as Hmsr.
    { intros y. rewrite Hms.
      destruct (invocations_total P 1000 _ y Hus) as (y' & Hy & HP).
      exists y'. split; [exact Hy | apply HP; lia]. }
    destruct (invocations_total P (Z.to_nat x) _ s Hus) as (s1 & Hs1 & HP1).
    destruct (invocations_total P (Z.to_nat x) _ s Hmsr) as (s2 & Hs2 & HP2).
    exists s1, s2. split; [exact Hs1|]. split; [exact Hs2|].
    intros Hpos. destruct (HP1 ltac:(lia)) as (A & B).
    destruct (HP2 ltac:(lia)) as (C & D). auto.
  - intros Hlt Hpos.
    assert (forall y, Delay_us_SysTick clk k fuel 1000 y = None) as Hnone.
    { intros y. unfold Delay_us_SysTick.
      rewrite Delay_us_load_0_hangs; [reflexivity|].
      unfold Delay_us_load, Delay_us_ticks, uint32.
      unfold is_uint32 in Hc. rewrite Z.div_small by lia. reflexivity. }
    replace (Z.to_nat x) with (S (Z.to_nat (x - 1))) by lia.
    cbn [invocations]. rewrite Hnone, Hms.
    change 1000%nat with (S 999). cbn [invocations]. rewrite Hnone.
    split; reflexivity.
Qed.

Lemma Delay_ms_Delay_s_on_SysTick_witness :
  is_uint32 1000000 /\ is_uint32 2
  /\ Delay_us_load 1000000 1000 = 1000
  /\ (exists s1,
        Delay_ms (Delay_us_SysTick 1000000 1 1001) 1001 2 (armed 0) = Some s1
        /\ CTRL s1 = 4 /\ LOAD s1 = 1000)
  /\ Delay_ms (Delay_us_SysTick 999999 1 1001) 1001 2 (armed 0) = None.
Proof.
  assert (is_uint32 1000000) as Hc by (unfold is_uint32; lia).
  assert (is_uint32 999999) as Hc' by (unfold is_uint32; lia).
  assert (is_uint32 2) as Hx by (unfold is_uint32; lia).
  assert (Delay_us_load 1000000 1000 = 1000) as Hl by reflexivity.
  assert (Delay_us_load 999999 1000 = 0) as Hl' by reflexivity.
  destruct (Delay_ms_Delay_s_on_SysTick 1000000 1 1001 2 (armed 0) Hc
              (Nat.le_refl 1) Hx ltac:(cbn; lia) ltac:(lia)
              ltac:(rewrite Hl; cbn; lia)) as (Hfast & _).
  destruct (Hfast ltac:(lia)) as (s1 & s2 & Hs1 & _ & Hst).
  destruct (Hst ltac:(lia)) as (H4 & HL & _).
  destruct (Delay_ms_Delay_s_on_SysTick 999999 1 1001 2 (armed 0) Hc'
              (Nat.le_refl 1) Hx ltac:(cbn; lia) ltac:(lia)
              ltac:(rewrite Hl'; cbn; lia)) as (_ & Hslow).
  destruct (Hslow ltac:(lia) ltac:(lia)) as (Hnone & _).
  split; [exact Hc|]. split; [exact Hx|]. split; [exact Hl|].
  split; [exists s1; auto | exact Hnone].
Defined.

(** X8: how the delays add up, over any meaning of [Delay_us(1000)].
    [Delay_ms(a + b)] is [Delay_ms(a)] followed by [Delay_ms(b)], and
    [Delay_s(a)] is [Delay_ms(1000 * a)], as long as the sums and products
    fit a [uint32_t]. *)
Theorem Delay_ms_Delay_s_compose
  {M : Type} (callee : Z -> M -> option M) fuel a b m :
  is_uint32 a -> is_uint32 b -> is_uint32 (a + b) ->
  (Z.to_nat (a + b) < fuel)%nat -> (1000 < fuel)%nat ->
  Delay_ms callee fuel (a + b) m
  = match Delay_ms callee fuel a m with
    | Some m' => Delay_ms callee fuel b m'
    | None => None
    end
  /\ (is_uint32 (1000 * a) -> (Z.to_nat (1000 * a) < fuel)%nat ->
      Delay_s callee fuel a m = Delay_ms callee fuel (1000 * a) m).
Proof.
  unfold is_uint32. intros Ha Hb Hab Hf Hk.
  assert (forall y, Delay_ms callee fuel 1000 y = invocations 1000 (callee 1000) y)
    as Hms.
  { intros y. unfold Delay_ms.
    apply while_postdec_invocations; [unfold is_uint32; lia | lia]. }
  unfold Delay_ms, Delay_s. split.
  - rewrite !while_postdec_invocations by (unfold is_uint32; lia).
    replace (Z.to_nat (a + b)) with (Z.to_nat a + Z.to_nat b)%nat by lia.
    rewrite invocations_add.
    destruct (invocations (Z.to_nat a) (callee 1000) m) as [m'|];
      [|reflexivity].
    rewrite while_postdec_invocations by (unfold is_uint32; lia).
    reflexivity.
  - intros Hm Hfm.
    rewrite !while_postdec_invocations by (unfold is_uint32; lia).
    rewrite (invocations_ext _ _ _ _ Hms), invocations_mul.
    f_equal. lia.
Qed.

Lemma Delay_ms_Delay_s_compose_witness :
  is_uint32 2 /\ is_uint32 3 /\ is_uint32 (2 + 3)
  /\ Delay_ms Delay_us_call 1001 (2 + 3) []
     = match Delay_ms Delay_us_call 1001 2 [] with
       | Some t => Delay_ms Delay_us_call 1001 3 t
       | None => None
       end.
Proof.
  assert (is_uint32 2) as Ha by (unfold is_uint32; lia).
  assert (is_uint32 3) as Hb by (unfold is_uint32; lia).
  assert (is_uint32 (2 + 3)) as Hab by (unfold is_uint32; lia).
  destruct (Delay_ms_Delay_s_compose Delay_us_call 1001 2 3 [] Ha Hb Hab
              ltac:(cbn; lia) ltac:(lia)) as (Hadd & _).
  split; [exact Ha|]. split; [exact Hb|]. split; [exact Hab | exact Hadd].
Defined.

(** ** The breathing loop over many iterations *)

Lemma main_loop_step k s :
  fst (main_loop (S k) s) = fst (main_loop k (next s))
  /\ snd (main_loop (S k) s) = emitted s ++ snd (main_loop k (next s)).
Proof.
  unfold next, emitted. cbn [main_loop].
  destruct (main_loop_body s) as [s1 t1]. cbn [fst snd].
  destruct (main_loop k s1) as [s2 t2]. split; reflexivity.
Qed.

Lemma main_loop_add a b s :
  fst (main_loop (a + b) s) = fst (main_loop b (fst (main_loop a s)))
  /\ snd (main_loop (a + b) s)
     = snd (main_loop a s) ++ snd (main_loop b (fst (main_loop a s))).
Proof.
  revert s. induction a as [|a IH]; intros s.
  - split; reflexivity.
  - change (S a + b)%nat with (S (a + b)).
    destruct (main_loop_step (a + b) s) as (-> & ->).
    destruct (main_loop_step a s) as (-> & ->).
    destruct (IH (next s)) as (-> & ->).
    rewrite app_assoc. split; reflexivity.
Qed.

Lemma ramp_invariant_main_loop n s :
  ramp_invariant s -> ramp_invariant (fst (main_loop n s)).
Proof.
  revert s. induction n as [|n IH]; intros s Hs; [exact Hs|].
  destruct (main_loop_step n s) as (-> & _).
  apply IH, ramp_invariant_next, Hs.
Qed.

Lemma reachable_main_loop n : reachable (fst (main_loop n initial_state)).
Proof.
  assert (forall s, reachable s -> reachable (fst (main_loop n s))) as H.
  { induction n as [|n IH]; intros s Hs; [exact Hs|].
    destruct (main_loop_step n s) as (-> & _).
    apply IH, reachable_next, Hs. }
  apply H, reachable_initial.
Qed.

(** After a whole breathing cycle the statics are back at their initial
    values. *)
Lemma breath_cycle_returns :
  fst (main_loop breath_cycle initial_state) = initial_state.
Proof. vm_compute. reflexivity. Qed.

Lemma main_loop_cycles q r :
  fst (main_loop (q * breath_cycle + r) initial_state)
  = fst (main_loop r initial_state).
Proof.
  induction q as [|q IH]; [reflexivity|].
  replace (S q * breath_cycle + r)%nat
    with (breath_cycle + (q * breath_cycle + r))%nat by lia.
  destruct (main_loop_add breath_cycle (q * breath_cycle + r) initial_state)
    as (-> & _).
  rewrite breath_cycle_returns. exact IH.
Qed.

Lemma In_indexed_trajectory n s start m :
  (m < n)%nat ->
  In ((start + m)%nat, fst (main_loop m s))
     (combine (seq start n) (trajectory n s)).
Proof.
  revert s start m. induction n as [|n IH]; intros s start m Hm; [lia|].
  cbn [seq trajectory combine]. destruct m as [|m].
  - left. rewrite Nat.add_0_r. reflexivity.
  - right. destruct (main_loop_step m s) as (-> & _).
    replace (start + S m)%nat with (S start + m)%nat by lia.
    apply IH. lia.
Qed.

Lemma BreathState_eqb_eq a b : BreathState_eqb a b = true -> a = b.
Proof.
  unfold BreathState_eqb. destruct a as [b1 d1 c1], b as [b2 d2 c2].
  cbn [brightness direction counter].
  rewrite !andb_true_iff, !Z.eqb_eq. intros ((-> & ->) & ->). reflexivity.
Qed.

Lemma ramp_state_first_cycle :
  forallb (fun p => BreathState_eqb (snd p) (ramp_state (Z.of_nat (fst p))))
    (combine (seq 0 breath_cycle) (trajectory breath_cycle initial_state))
  = true.
Proof. vm_compute. reflexivity. Qed.

(** X9: the statics of [main] in closed form.  At the head of iteration
    [n] (counting from 0), with [m = n mod 7650]: the counter is
    [m mod 15]; the brightness is [m / 15] on the way up ([m <= 3825]) and
    [255 - (m - 3825) / 15] on the way down; the direction is +1 for
    [m < 3825] and -1 from there on.  In particular the loop is periodic:
    every [2 * 255 * 15 = 7650] iterations it is back at brightness 0,
    direction +1, counter 0. *)
Theorem breathing_closed_form n :
  fst (main_loop n initial_state) = ramp_state (Z.of_nat n mod 7650)
  /\ fst (main_loop (n + breath_cycle) initial_state)
     = fst (main_loop n initial_state).
Proof.
  assert (forall r, (r < breath_cycle)%nat ->
            fst (main_loop r initial_state) = ramp_state (Z.of_nat r)) as Hfirst.
  { intros r Hr.
    pose proof ramp_state_first_cycle as Hall.
    rewrite forallb_forall in Hall.
    specialize (Hall _ (In_indexed_trajectory breath_cycle initial_state 0 r Hr)).
    cbn [fst snd Nat.add] in Hall. apply BreathState_eqb_eq, Hall. }
  assert (breath_cycle <> 0%nat) as Hc by (unfold breath_cycle; lia).
  assert (Z.of_nat breath_cycle = 7650) as Hcz by reflexivity.
  split.
  - pose proof (Nat.div_mod n breath_cycle Hc) as Hn.
    pose proof (Nat.mod_upper_bound n breath_cycle Hc) as Hr.
    rewrite Hn at 1.
    rewrite (Nat.mul_comm breath_cycle), main_loop_cycles.
    rewrite Hfirst by exact Hr. f_equal.
    rewrite <- Hcz, <- Nat2Z.inj_mod. reflexivity.
  - replace (n + breath_cycle)%nat with (1 * breath_cycle + n)%nat by lia.
    apply main_loop_cycles.
Qed.

(** ** The PWM period and the delays [main] asks for *)

Lemma requested_us_app t1 t2 :
  requested_us (t1 ++ t2) = requested_us t1 + requested_us t2.
Proof.
  induction t1 as [|e t1 IH]; cbn [app requested_us]; [reflexivity|].
  destruct e; rewrite IH; lia.
Qed.

Lemma requested_us_LED1_only t : filter is_LED1 t = t -> requested_us t = 0.
Proof.
  induction t as [|e t IH]; intros Hf; [reflexivity|].
  cbn [filter] in Hf. destruct (is_LED1 e) eqn:He.
  - injection Hf as Hf. destruct e; try discriminate He; cbn; auto.
  - exfalso.
    assert (length (filter is_LED1 t) <= length t)%nat as Hlen
      by apply filter_length_le.
    rewrite Hf in Hlen. cbn [length] in Hlen. lia.
Qed.

Lemma requested_us_pwm_period b :
  0 <= b <= 255 -> requested_us (pwm_period b) = PWM_CYCLE.
Proof.
  intros Hb.
  pose proof (on_time_range b Hb) as Hon.
  pose proof (off_time_exact b Hb) as Hoff.
  unfold PWM_CYCLE in *. unfold pwm_period.
  rewrite (uint32_small (on_time b)) by (unfold is_uint32; lia).
  rewrite (uint32_small (off_time b)) by (unfold is_uint32; lia).
  destruct (Z.gtb_spec (on_time b) 0); destruct (Z.gtb_spec (off_time b) 0);
    cbn [app requested_us]; lia.
Qed.

Lemma requested_us_emitted s :
  ramp_invariant s -> requested_us (emitted s) = PWM_CYCLE.
Proof.
  intros (_ & Hd).
  destruct (emitted_split s) as (t' & -> & Hled).
  rewrite requested_us_app, (requested_us_LED1_only t' Hled).
  rewrite requested_us_pwm_period by lia. lia.
Qed.

(** X10: the PWM period is constant.  From any state the loop reaches,
    every iteration asks [Delay_us] for 500 microseconds in all, whatever
    the brightness, so [n] iterations ask for [500 * n] microseconds. *)
Theorem PWM_period_is_constant n s :
  reachable s ->
  requested_us (emitted s) = PWM_CYCLE
  /\ requested_us (snd (main_loop n s)) = PWM_CYCLE * Z.of_nat n.
Proof.
  intros Hr. pose proof (reachable_ramp_invariant s Hr) as Hinv.
  split; [apply requested_us_emitted, Hinv|].
  clear Hr. revert s Hinv. induction n as [|n IH]; intros s Hinv.
  - cbn. lia.
  - destruct (main_loop_step n s) as (_ & ->).
    rewrite requested_us_app, requested_us_emitted by exact Hinv.
    rewrite IH by (apply ramp_invariant_next, Hinv). lia.
Qed.

Lemma PWM_period_is_constant_witness :
  reachable initial_state
  /\ requested_us (snd (main_loop (15 * 255) initial_state)) = 500 * (15 * 255).
Proof.
  split; [apply reachable_initial|].
  apply (PWM_period_is_constant (15 * 255) initial_state reachable_initial).
Defined.

Lemma occurrences_app e t1 t2 :
  occurrences e (t1 ++ t2) = (occurrences e t1 + occurrences e t2)%nat.
Proof. unfold occurrences. rewrite filter_app, length_app. reflexivity. Qed.

Lemma breath_cycle_LED1 :
  occurrences Call_LED_On_1 (snd (main_loop breath_cycle initial_state)) = 1%nat
  /\ occurrences Call_LED_Off_1 (snd (main_loop breath_cycle initial_state))
     = 1%nat.
Proof. split; vm_compute; reflexivity. Qed.

(** X11: LED1 is switched once per half cycle.  Over [q] whole breathing
    cycles of 7650 iterations each, [main] calls [LED_On_1] exactly [q]
    times and [LED_Off_1] exactly [q] times. *)
Theorem LED1_once_per_cycle q :
  occurrences Call_LED_On_1 (snd (main_loop (q * breath_cycle) initial_state))
  = q
  /\ occurrences Call_LED_Off_1
       (snd (main_loop (q * breath_cycle) initial_state)) = q.
Proof.
  induction q as [|q (IHon & IHoff)]; [split; reflexivity|].
  change (S q * breath_cycle)%nat with (breath_cycle + q * breath_cycle)%nat.
  destruct (main_loop_add breath_cycle (q * breath_cycle) initial_state)
    as (_ & ->).
  rewrite breath_cycle_returns, !occurrences_app, IHon, IHoff.
  destruct breath_cycle_LED1 as (-> & ->). split; reflexivity.
Qed.

(** X13: the delays [main] asks for are never clamped and never hang.
    Every [Delay_us] call of a reachable iteration asks for 1 to 500
    microseconds; with any core clock of 1 MHz or more that a [uint32_t]
    holds the load is the exact tick product, and on the Cortex-M4 timer the
    call returns. *)
Theorem main_delays_are_exact clk k fuel st s d :
  is_uint32 clk -> 1000000 <= clk -> (1 <= k)%nat ->
  (Z.to_nat (clk / 1000000 * d) < fuel)%nat ->
  reachable s -> In (Call_Delay_us d) (emitted s) ->
  1 <= d <= PWM_CYCLE
  /\ Delay_us_load clk d = clk / 1000000 * d
  /\ exists reads st', Delay_us SysTick clk k fuel d st = Some (reads, st').
Proof.
  intros Hc Hm Hk Hf Hr Hin.
  destruct (reachable_ramp_invariant s Hr) as (_ & Hd).
  assert (0 <= brightness s <= 255) as Hb by lia.
  pose proof (on_time_range _ Hb) as Hon.
  pose proof (off_time_exact _ Hb) as Hoff.
  unfold PWM_CYCLE in *.
  assert (1 <= d <= 500) as Hdr.
  { destruct (In_emitted _ _ Hin) as [Hp | Hl]; [|discriminate Hl].
    destruct (In_pwm_period _ _ Hp) as [(He & _) | [(He & Hpos)
                                      | [(He & _) | (He & Hpos)]]];
      try discriminate He; injection He as ->;
      rewrite uint32_small by (unfold is_uint32; lia); lia. }
  pose proof (ticks_per_us_range clk Hc) as Hq.
  assert (1 <= clk / 1000000) by (apply Z.div_le_lower_bound; lia).
  assert (Delay_us_load clk d = clk / 1000000 * d) as Hl
    by (apply Delay_us_load_exact; unfold COUNTER_MAX; nia).
  split; [exact Hdr|]. split; [exact Hl|].
  apply Delay_us_returns_with_fuel; [exact Hk | rewrite Hl; nia | rewrite Hl; exact Hf].
Qed.

Lemma main_delays_are_exact_witness :
  is_uint32 168000000 /\ reachable initial_state
  /\ In (Call_Delay_us 500) (emitted initial_state)
  /\ Delay_us_load 168000000 500 = 84000.
Proof.
  assert (is_uint32 168000000) as Hc by (unfold is_uint32; lia).
  assert (In (Call_Delay_us 500) (emitted initial_state)) as Hin
    by (right; left; reflexivity).
  destruct (main_delays_are_exact 168000000 1 (S (Z.to_nat 84000)) (armed 0)
              initial_state 500 Hc ltac:(lia) (Nat.le_refl 1)
              (Nat.lt_succ_diag_r _) reachable_initial Hin) as (_ & Hl & _).
  split; [exact Hc|]. split; [apply reachable_initial|].
  split; [exact Hin | exact Hl].
Defined.

(** X14: the duty split follows the brightness.  On [0,255] the on time
    grows and the off time shrinks with the brightness; the on time is 0
    only at brightness 0 and the off time is 0 only at brightness 255, so
    these are the only two brightness values at which [main] leaves out a
    phase of the PWM period. *)
Theorem duty_split_monotone b1 b2 :
  0 <= b1 <= b2 -> b2 <= 255 ->
  on_time b1 <= on_time b2
  /\ off_time b2 <= off_time b1
  /\ (on_time b1 = 0 <-> b1 = 0)
  /\ (off_time b1 = 0 <-> b1 = 255).
Proof.
  intros H1 H2.
  rewrite !off_time_exact, !on_time_exact by lia.
  unfold PWM_CYCLE, BRIGHTNESS_MAX.
  assert (b1 * 500 / 255 <= b2 * 500 / 255) as Hmono
    by (apply Z.div_le_mono; lia).
  pose proof (Z.mul_div_le (b1 * 500) 255 ltac:(lia)) as Hlo.
  pose proof (Z.mul_succ_div_gt (b1 * 500) 255 ltac:(lia)) as Hhi.
  assert (0 <= b1 * 500 / 255) by (apply Z.div_pos; lia).
  repeat split; try lia; intros; subst; try reflexivity; nia.
Qed.

Lemma duty_split_monotone_witness :
  0 <= 0 <= 255 /\ 255 <= 255
  /\ on_time 0 = 0 /\ on_time 255 = 500 /\ off_time 255 = 0.
Proof.
  destruct (duty_split_monotone 0 255 ltac:(lia) ltac:(lia)) as (_ & _ & (_ & H0) & _).
  destruct (duty_split_monotone 255 255 ltac:(lia) ltac:(lia)) as (_ & _ & _ & (_ & H255)).
  split; [lia|]. split; [lia|]. split; [apply H0; reflexivity|].
  split; [reflexivity | apply H255; reflexivity].
Defined.

(** ** LED.c on the port registers *)

Lemma testbit_uint32 z n :
  Z.testbit (uint32 z) n = (n <? 32) && Z.testbit z n.
Proof. unfold uint32. apply Z.testbit_mod_pow2. lia. Qed.

(** Splits a bit index below 32 into its 32 cases; [H] names the bound
    [n < 32] in the context. *)
Ltac bit_index n H :=
  let rec from k :=
    lazymatch k with
    | 32%Z => exfalso; lia
    | _ =>
        let Hk := fresh "Hk" in
        destruct (Z.eq_dec n k) as [Hk | Hk];
        [ subst n | let k' := eval compute in (k + 1)%Z in from k' ]
    end in
  from 0%Z.

(** Equality of two 32-bit words built from one register [m] and constant
    masks, bit by bit. *)
Ltac masks m :=
  apply Z.bits_inj'; let n := fresh "n" in let Hn := fresh "Hn" in
  intros n Hn;
  repeat rewrite ?testbit_uint32, ?Z.lor_spec, ?Z.land_spec;
  let b := fresh "b" in
  generalize (Z.testbit m n); intros b;
  let Hlt := fresh "Hlt" in
  destruct (Z.ltb_spec n 32) as [Hlt | Hlt];
  [ bit_index n Hlt; destruct b; reflexivity
  | cbn [andb]; reflexivity ].

(** [LED_Init] comes down to one masked update per register. *)
Lemma LED_Init_masks p :
  LED_Init p
  = {| RCC := {| AHB1ENR := uint32 (Z.lor (AHB1ENR (RCC p)) 0x00000002) |};
       GPIOB :=
         {| MODER :=
              uint32 (Z.lor (Z.land (MODER (GPIOB p)) (Z.lnot 0x00030030))
                            0x00010010);
            OTYPER := uint32 (Z.land (OTYPER (GPIOB p)) (Z.lnot 0x00000104));
            OSPEEDR := uint32 (Z.lor (OSPEEDR (GPIOB p)) 0x00030030);
            PUPDR := uint32 (Z.land (PUPDR (GPIOB p)) (Z.lnot 0x00030030));
            ODR :=
              uint32 (Z.lor (Z.land (ODR (GPIOB p)) (Z.lnot 0x00000004))
                            0x00000100) |} |}.
Proof.
  unfold LED_Init, write_BSRR, set_ODR. cbv zeta.
  cbn [MODER OTYPER OSPEEDR PUPDR ODR].
  f_equal. f_equal.
  - masks (MODER (GPIOB p)).
  - masks (OTYPER (GPIOB p)).
  - masks (OSPEEDR (GPIOB p)).
  - masks (PUPDR (GPIOB p)).
  - masks (ODR (GPIOB p)).
Qed.

(** Reads one bit of a register after a masked update. *)
Ltac bit_of m :=
  repeat rewrite ?testbit_uint32, ?Z.lor_spec, ?Z.land_spec;
  generalize m; let b := fresh "b" in intros b; destruct b; reflexivity.

(** X15: what [LED_Init] configures and what it leaves alone.  PB2 and PB8
    become general purpose outputs (mode 01), push-pull, at the highest
    speed (11), without pull-up or pull-down (00); the GPIOB clock enable
    bit is set; LED2 is dark (PB2 low) and LED1 is dark (PB8 high).  Every
    other one of the low 32 bits of these registers keeps its value. *)
Theorem LED_Init_configures_PB2_PB8 p :
  (Z.testbit (MODER (GPIOB (LED_Init p))) 4 = true
   /\ Z.testbit (MODER (GPIOB (LED_Init p))) 5 = false
   /\ Z.testbit (MODER (GPIOB (LED_Init p))) 16 = true
   /\ Z.testbit (MODER (GPIOB (LED_Init p))) 17 = false)
  /\ (Z.testbit (OTYPER (GPIOB (LED_Init p))) 2 = false
      /\ Z.testbit (OTYPER (GPIOB (LED_Init p))) 8 = false)
  /\ (Z.testbit (OSPEEDR (GPIOB (LED_Init p))) 4 = true
      /\ Z.testbit (OSPEEDR (GPIOB (LED_Init p))) 5 = true
      /\ Z.testbit (OSPEEDR (GPIOB (LED_Init p))) 16 = true
      /\ Z.testbit (OSPEEDR (GPIOB (LED_Init p))) 17 = true)
  /\ (Z.testbit (PUPDR (GPIOB (LED_Init p))) 4 = false
      /\ Z.testbit (PUPDR (GPIOB (LED_Init p))) 5 = false
      /\ Z.testbit (PUPDR (GPIOB (LED_Init p))) 16 = false
      /\ Z.testbit (PUPDR (GPIOB (LED_Init p))) 17 = false)
  /\ Z.testbit (AHB1ENR (RCC (LED_Init p))) 1 = true
  /\ (PB2 (LED_Init p) = false /\ PB8 (LED_Init p) = true)
  /\ (forall n, 0 <= n < 32 ->
      (n <> 4 -> n <> 5 -> n <> 16 -> n <> 17 ->
       Z.testbit (MODER (GPIOB (LED_Init p))) n
       = Z.testbit (MODER (GPIOB p)) n
       /\ Z.testbit (OSPEEDR (GPIOB (LED_Init p))) n
          = Z.testbit (OSPEEDR (GPIOB p)) n
       /\ Z.testbit (PUPDR (GPIOB (LED_Init p))) n
          = Z.testbit (PUPDR (GPIOB p)) n)
      /\ (n <> 2 -> n <> 8 ->
          Z.testbit (OTYPER (GPIOB (LED_Init p))) n
          = Z.testbit (OTYPER (GPIOB p)) n
          /\ Z.testbit (ODR (GPIOB (LED_Init p))) n
             = Z.testbit (ODR (GPIOB p)) n)
      /\ (n <> 1 ->
          Z.testbit (AHB1ENR (RCC (LED_Init p))) n
          = Z.testbit (AHB1ENR (RCC p)) n)).
Proof.
  unfold PB2, PB8. rewrite LED_Init_masks.
  cbn [RCC GPIOB MODER OTYPER OSPEEDR PUPDR ODR AHB1ENR].
  repeat match goal with |- _ /\ _ => split end.
  1-4: bit_of (Z.testbit (MODER (GPIOB p))).
  1-2: bit_of (Z.testbit (OTYPER (GPIOB p))).
  1-4: bit_of (Z.testbit (OSPEEDR (GPIOB p))).
  1-4: bit_of (Z.testbit (PUPDR (GPIOB p))).
  1: bit_of (Z.testbit (AHB1ENR (RCC p))).
  1-2: bit_of (Z.testbit (ODR (GPIOB p))).
  intros n Hn.
  repeat rewrite ?testbit_uint32, ?Z.lor_spec, ?Z.land_spec.
  generalize (Z.testbit (MODER (GPIOB p)) n) (Z.testbit (OSPEEDR (GPIOB p)) n)
    (Z.testbit (PUPDR (GPIOB p)) n) (Z.testbit (OTYPER (GPIOB p)) n)
    (Z.testbit (ODR (GPIOB p)) n) (Z.testbit (AHB1ENR (RCC p)) n).
  intros b1 b2 b3 b4 b5 b6.
  bit_index n Hn;
    (split; [|split]); intros; try congruence;
    repeat match goal with |- _ /\ _ => split end;
    try (destruct b1; reflexivity); try (destruct b2; reflexivity);
    try (destruct b3; reflexivity); try (destruct b4; reflexivity);
    try (destruct b5; reflexivity); destruct b6; reflexivity.
Qed.

Lemma LED_Init_configures_PB2_PB8_witness :
  0 <= 6 < 32
  /\ Z.testbit (MODER (GPIOB (LED_Init lit_ports))) 6
     = Z.testbit (MODER (GPIOB lit_ports)) 6
  /\ Z.testbit (ODR (GPIOB (LED_Init lit_ports))) 3
     = Z.testbit (ODR (GPIOB lit_ports)) 3.
Proof.
  destruct (LED_Init_configures_PB2_PB8 lit_ports)
    as (_ & _ & _ & _ & _ & _ & Hframe).
  destruct (Hframe 6 ltac:(lia)) as (Hm & _).
  destruct (Hm ltac:(lia) ltac:(lia) ltac:(lia) ltac:(lia)) as (Hmoder & _).
  destruct (Hframe 3 ltac:(lia)) as (_ & Ho & _).
  destruct (Ho ltac:(lia) ltac:(lia)) as (_ & Hodr).
  split; [lia|]. split; [exact Hmoder | exact Hodr].
Defined.

Lemma masked_update_idempotent a b m :
  uint32 (Z.lor (Z.land (uint32 (Z.lor (Z.land m a) b)) a) b)
  = uint32 (Z.lor (Z.land m a) b).
Proof.
  apply Z.bits_inj'. intros n Hn.
  repeat rewrite ?testbit_uint32, ?Z.lor_spec, ?Z.land_spec.
  destruct (n <? 32), (Z.testbit m n), (Z.testbit a n), (Z.testbit b n);
    reflexivity.
Qed.

Lemma masked_clear_idempotent a m :
  uint32 (Z.land (uint32 (Z.land m a)) a) = uint32 (Z.land m a).
Proof.
  apply Z.bits_inj'. intros n Hn.
  repeat rewrite ?testbit_uint32, ?Z.land_spec.
  destruct (n <? 32), (Z.testbit m n), (Z.testbit a n); reflexivity.
Qed.

Lemma masked_set_idempotent b m :
  uint32 (Z.lor (uint32 (Z.lor m b)) b) = uint32 (Z.lor m b).
Proof.
  apply Z.bits_inj'. intros n Hn.
  repeat rewrite ?testbit_uint32, ?Z.lor_spec.
  destruct (n <? 32), (Z.testbit m n), (Z.testbit b n); reflexivity.
Qed.

(** X16: [LED_Init] is idempotent: calling it again changes nothing, as
    LED.h promises of repeated calls. *)
Theorem LED_Init_idempotent p : LED_Init (LED_Init p) = LED_Init p.
Proof.
  rewrite (LED_Init_masks (LED_Init p)), (LED_Init_masks p).
  cbn [RCC GPIOB MODER OTYPER OSPEEDR PUPDR ODR AHB1ENR].
  rewrite !masked_update_idempotent, !masked_clear_idempotent,
    !masked_set_idempotent.
  reflexivity.
Qed.


Lemma testbit_4 n : Z.testbit 4 n = (n =? 2).
Proof.
  change 4 with (2 ^ 2). rewrite Z.pow2_bits_eqb by lia. apply Z.eqb_sym.
Qed.

Lemma testbit_256 n : Z.testbit 256 n = (n =? 8).
Proof.
  change 256 with (2 ^ 8). rewrite Z.pow2_bits_eqb by lia. apply Z.eqb_sym.
Qed.

Lemma ports_eq p q :
  RCC p = RCC q -> MODER (GPIOB p) = MODER (GPIOB q) ->
  OTYPER (GPIOB p) = OTYPER (GPIOB q) ->
  OSPEEDR (GPIOB p) = OSPEEDR (GPIOB q) ->
  PUPDR (GPIOB p) = PUPDR (GPIOB q) ->
  ODR (GPIOB p) = ODR (GPIOB q) -> p = q.
Proof.
  destruct p as [r [m o s u d]], q as [r' [m' o' s' u' d']].
  cbn. intros; subst; reflexivity.
Qed.

(** Bit [n] of [ODR] behind each wrapper. *)
Lemma ODR_LED_On_2 p n :
  0 <= n ->
  Z.testbit (ODR (GPIOB (LED_On_2 p))) n
  = (n <? 32) && (Z.testbit (ODR (GPIOB p)) n || (n =? 2)).
Proof.
  intros Hn. unfold LED_On_2, on_GPIOB, set_ODR. cbn [GPIOB ODR].
  rewrite testbit_uint32, Z.lor_spec.
  change (Z.shiftl 1 2) with 4. rewrite testbit_4. reflexivity.
Qed.

Lemma ODR_LED_Off_2 p n :
  0 <= n ->
  Z.testbit (ODR (GPIOB (LED_Off_2 p))) n
  = (n <? 32) && (Z.testbit (ODR (GPIOB p)) n && negb (n =? 2)).
Proof.
  intros Hn. unfold LED_Off_2, on_GPIOB, set_ODR. cbn [GPIOB ODR].
  rewrite testbit_uint32, Z.land_spec, Z.lnot_spec by lia.
  change (Z.shiftl 1 2) with 4. rewrite testbit_4. reflexivity.
Qed.

Lemma ODR_LED_On_1 p n :
  0 <= n ->
  Z.testbit (ODR (GPIOB (LED_On_1 p))) n
  = (n <? 32) && (Z.testbit (ODR (GPIOB p)) n && negb (n =? 8)).
Proof.
  intros Hn. unfold LED_On_1, on_GPIOB, write_BSRR, set_ODR.
  cbn [GPIOB ODR].
  change (Z.shiftr (uint32 (Z.shiftl 1 (8 + 16))) 16) with 256.
  change (Z.land (uint32 (Z.shiftl 1 (8 + 16))) 65535) with 0.
  rewrite testbit_uint32, Z.lor_spec, Z.land_spec, Z.lnot_spec by lia.
  rewrite testbit_256, Z.testbit_0_l, orb_false_r. reflexivity.
Qed.

Lemma ODR_LED_Off_1 p n :
  0 <= n ->
  Z.testbit (ODR (GPIOB (LED_Off_1 p))) n
  = (n <? 32) && (Z.testbit (ODR (GPIOB p)) n || (n =? 8)).
Proof.
  intros Hn. unfold LED_Off_1, on_GPIOB, write_BSRR, set_ODR.
  cbn [GPIOB ODR].
  change (Z.shiftr (uint32 (Z.shiftl 1 8)) 16) with 0.
  change (Z.land (uint32 (Z.shiftl 1 8)) 65535) with 256.
  rewrite testbit_uint32, Z.lor_spec, Z.land_spec, Z.lnot_spec by lia.
  rewrite testbit_256, Z.testbit_0_l, andb_true_r. reflexivity.
Qed.



(** X18: the LED1 wrappers touch bit 8 of [ODR] and nothing else, through
    [BSRR]: [LED_On_1] drives PB8 low (LED1 is lit by a low level),
    [LED_Off_1] drives it high, every other one of the low 32 output bits
    keeps its value.  The last call wins, and repeating a call changes
    nothing. *)
Theorem LED1_wrappers_touch_PB8_only p :
  (PB8 (LED_On_1 p) = false /\ PB8 (LED_Off_1 p) = true)
  /\ (forall n, 0 <= n < 32 -> n <> 8 ->
      Z.testbit (ODR (GPIOB (LED_On_1 p))) n = Z.testbit (ODR (GPIOB p)) n
      /\ Z.testbit (ODR (GPIOB (LED_Off_1 p))) n
         = Z.testbit (ODR (GPIOB p)) n)
  /\ (LED_On_1 (LED_Off_1 p) = LED_On_1 p
      /\ LED_Off_1 (LED_On_1 p) = LED_Off_1 p
      /\ LED_On_1 (LED_On_1 p) = LED_On_1 p
      /\ LED_Off_1 (LED_Off_1 p) = LED_Off_1 p).
Proof.
  split; [split; [apply PB8_LED_On_1 | apply PB8_LED_Off_1]|].
  split.
  - intros n Hn Hne. rewrite ODR_LED_On_1, ODR_LED_Off_1 by lia.
    destruct (Z.ltb_spec n 32); [|lia].
    destruct (Z.eqb_spec n 8); [lia|].
    cbn [andb negb]. rewrite orb_false_r, andb_true_r. split; reflexivity.
  - repeat split; apply ports_eq; try reflexivity;
      apply Z.bits_inj'; intros n Hn;
      rewrite ?ODR_LED_On_1, ?ODR_LED_Off_1 by lia;
      rewrite ?ODR_LED_On_1, ?ODR_LED_Off_1 by lia;
      destruct (n <? 32), (Z.testbit (ODR (GPIOB p)) n), (n =? 8);
      reflexivity.
Qed.

Lemma LED1_wrappers_touch_PB8_only_witness :
  0 <= 2 < 32
  /\ Z.testbit (ODR (GPIOB (LED_On_1 lit_ports))) 2
     = Z.testbit (ODR (GPIOB lit_ports)) 2
  /\ PB8 (LED_On_1 lit_ports) = false.
Proof.
  destruct (LED1_wrappers_touch_PB8_only lit_ports) as ((H8 & _) & Hframe & _).
  destruct (Hframe 2 ltac:(lia) ltac:(lia)) as (H2 & _).
  split; [lia|]. split; [exact H2 | exact H8].
Defined.

(** ** LED1 over the run of [main] *)

Lemma PB8_LED_On_2 p : PB8 (LED_On_2 p) = PB8 p.
Proof. unfold PB8. rewrite ODR_LED_On_2 by lia. apply orb_false_r. Qed.

Lemma PB8_LED_Off_2 p : PB8 (LED_Off_2 p) = PB8 p.
Proof. unfold PB8. rewrite ODR_LED_Off_2 by lia. apply andb_true_r. Qed.

Lemma PB8_exec_pwm_period b w :
  PB8 (port (exec_trace (pwm_period b) w)) = PB8 (port w).
Proof.
  unfold pwm_period, exec_trace.
  destruct (on_time b >? 0); destruct (off_time b >? 0);
    cbn [app fold_left exec_event on_port port];
    repeat match goal with
      | |- context [if PB2 ?p then _ else _] => destruct (PB2 p)
      end;
    cbn [port]; rewrite ?PB8_LED_Off_2, ?PB8_LED_On_2; reflexivity.
Qed.

Lemma emitted_LED1_part s :
  emitted s = pwm_period (brightness s) ++ filter is_LED1 (emitted s).
Proof.
  destruct (emitted_split s) as (t' & Hs & Hled).
  rewrite Hs at 2. rewrite filter_app, pwm_period_no_LED1, Hled. exact Hs.
Qed.

(** One iteration keeps PB8 in step with the direction. *)
Lemma PB8_exec_emitted s w :
  ramp_invariant s ->
  PB8 (port w) = (direction s =? 1) ->
  PB8 (port (exec_trace (emitted s) w)) = (direction (next s) =? 1).
Proof.
  intros Hinv Hw.
  rewrite emitted_LED1_part, exec_trace_app, (emitted_LED1_ramp s Hinv).
  pose proof (PB8_exec_pwm_period (brightness s) w) as Hp.
  set (w' := exec_trace (pwm_period (brightness s)) w) in *.
  pose proof (next_cases s Hinv) as Hn. destruct Hinv as (Hc & Hd).
  destruct Hn as [(H1 & ->) | [(H1 & H2 & H3 & ->) | [(H1 & H2 & H3 & ->)
                | [(H1 & H2 & H3 & ->) | (H1 & H2 & H3 & ->)]]]];
    cbn [direction];
    destruct (Z.eqb_spec (counter s) 14); try lia;
    try (destruct (Z.geb_spec (brightness s + direction s) 255); try lia);
    try (destruct (Z.leb_spec (brightness s + direction s) 0); try lia);
    unfold exec_trace; cbn [fold_left exec_event on_port port];
    rewrite ?PB8_LED_On_1, ?PB8_LED_Off_1, ?Hp, ?Hw, ?H2; reflexivity.
Qed.

Lemma PB8_exec_main_loop n s w :
  ramp_invariant s ->
  PB8 (port w) = (direction s =? 1) ->
  PB8 (port (exec_trace (snd (main_loop n s)) w))
  = (direction (fst (main_loop n s)) =? 1).
Proof.
  revert s w. induction n as [|n IH]; intros s w Hinv Hw; [exact Hw|].
  destruct (main_loop_step n s) as (-> & ->).
  rewrite exec_trace_app.
  apply IH; [apply ramp_invariant_next, Hinv | apply PB8_exec_emitted; assumption].
Qed.

Lemma main_unfold n :
  fst (main n) = fst (main_loop n initial_state)
  /\ snd (main n) = Call_LED_Init :: snd (main_loop n initial_state).
Proof.
  unfold main. destruct (main_loop n initial_state). split; reflexivity.
Qed.

(** X12: LED1 shows the direction of the ramp.  Run [main] from any
    contents of the port registers: after [LED_Init] and any number of
    iterations, PB8 is high (LED1 dark) exactly when the direction is +1,
    and low (LED1 lit) exactly when it is -1. *)
Theorem LED1_shows_the_direction n p :
  PB8 (port (exec_trace (snd (main n)) (start_wave p)))
  = (direction (fst (main n)) =? 1).
Proof.
  destruct (main_unfold n) as (-> & ->).
  change (exec_trace (Call_LED_Init :: snd (main_loop n initial_state))
            (start_wave p))
    with (exec_trace (snd (main_loop n initial_state))
            (on_port LED_Init (start_wave p))).
  apply PB8_exec_main_loop.
  - apply ramp_invariant_initial.
  - cbn [on_port port start_wave]. apply LED_Init_dark.
Qed.

(** ** The clamp, from any state *)

(** X19: the clamp does not rely on the other statics.  Whatever
    [direction] and [counter] hold, an iteration started with a brightness
    in [0,255] ends with a brightness in [0,255]; and an iteration that
    updates ends with a brightness in [0,255] and a counter of 0 whatever
    all three held, so that a corrupted brightness is repaired by the next
    update. *)
Theorem brightness_clamp_is_unconditional s :
  (0 <= brightness s <= 255 -> 0 <= brightness (next s) <= 255)
  /\ (updates s = true ->
      0 <= brightness (next s) <= 255 /\ counter (next s) = 0
      /\ (direction (next s) = direction s \/ direction (next s) = 1
          \/ direction (next s) = -1)).
Proof.
  unfold next, main_loop_body, update_brightness.
  destruct (updates s); cbn [fst].
  - assert (forall b d, let r :=
              fst (if b >=? 255
                   then ({| brightness := 255; direction := -1; counter := 0 |},
                         [Call_LED_On_1])
                   else if b <=? 0
                        then ({| brightness := 0; direction := 1; counter := 0 |},
                              [Call_LED_Off_1])
                        else ({| brightness := b; direction := d; counter := 0 |},
                              [])) in
              0 <= brightness r <= 255 /\ counter r = 0
              /\ (direction r = d \/ direction r = 1 \/ direction r = -1)) as Hu.
    { intros b d.
      destruct (Z.geb_spec b 255); [cbn; lia|].
      destruct (Z.leb_spec b 0); cbn; lia. }
    specialize (Hu (stepped_brightness s) (direction s)). cbv zeta in Hu.
    destruct (if stepped_brightness s >=? 255 then _ else _) as [s' t'].
    cbn [fst] in *. split; [intros _; apply Hu | intros _; exact Hu].
  - cbn [brightness]. split; [auto | discriminate].
Qed.

Lemma brightness_clamp_is_unconditional_witness :
  updates {| brightness := 1000; direction := 7; counter := 14 |} = true
  /\ next {| brightness := 1000; direction := 7; counter := 14 |}
     = {| brightness := 255; direction := -1; counter := 0 |}
  /\ 0 <= brightness (next {| brightness := 1000; direction := 7;
                              counter := 14 |}) <= 255.
Proof.
  assert (updates {| brightness := 1000; direction := 7; counter := 14 |}
          = true) as Hu by reflexivity.
  destruct (brightness_clamp_is_unconditional
              {| brightness := 1000; direction := 7; counter := 14 |})
    as (_ & Hfix).
  destruct (Hfix Hu) as (Hb & _).
  split; [exact Hu|]. split; [reflexivity | exact Hb].
Defined.
